(** * DSMR P1 telegram acquisition and parsing (smartmeter-influxdb.py)

    A shallow embedding of the frame reader [SmartMeter.read_one_packet] and
    of the telegram parser [P1Packet] (its [validate], [get], [get_float] and
    [__init__]), together with the fragments of Python's [bytes], [re],
    [int], [float] and of crcmod's predefined [crc16] that they call. *)

From stdpp Require Import base option list strings gmap.
From Stdlib Require Import ZArith Lia Strings.Byte Floats.SpecFloat.

Local Open Scope Z_scope.
Local Open Scope list_scope.

(** ** Bytes objects *)

Definition bytes := list byte.

#[global] Instance byte_eq_decision : EqDecision byte := Byte.byte_eq_dec.

(** Bytes literal written as text; CR and LF are spelled [CR] and [LF]. *)
Definition B (s : string) : bytes := String.list_byte_of_string s.

Definition CR : byte := x0d.
Definition LF : byte := x0a.
Definition CRLF : bytes := [CR; LF].

(** Value of a byte, as Python's indexing of a bytes object gives it. *)
Definition ord (c : byte) : Z := Z.of_N (Byte.to_N c).

(** Whitespace of [bytes.strip] and [bytes.lstrip]: [b' \t\n\r\x0b\x0c']. *)
Definition is_space (c : byte) : bool :=
  match c with
  | x20 | x09 | x0a | x0d | x0b | x0c => true
  | _ => false
  end.

(** Whitespace of [str.strip] on ASCII text: [str.isspace], which adds the
    separators 0x1c-0x1f to the six above. *)
Definition is_space_str (c : byte) : bool :=
  match c with
  | x1c | x1d | x1e | x1f => true
  | _ => is_space c
  end.

Fixpoint lstrip_with (sp : byte -> bool) (s : bytes) : bytes :=
  match s with
  | c :: s' => if sp c then lstrip_with sp s' else s
  | [] => []
  end.

Definition strip_with (sp : byte -> bool) (s : bytes) : bytes :=
  rev (lstrip_with sp (rev (lstrip_with sp s))).

(** [bytes.lstrip()] and [bytes.strip()]. *)
Definition lstrip : bytes -> bytes := lstrip_with is_space.
Definition strip : bytes -> bytes := strip_with is_space.

(** ** Exceptions *)

Inductive exn : Type :=
| SmartMeterError
| P1PacketError
| UnboundLocalError
| UnicodeDecodeError
| ValueError
| TypeError
| KeyError
| AttributeError.

Inductive result (A : Type) : Type :=
| Ok (a : A)
| Raise (e : exn).

Arguments Ok {A} a.
Arguments Raise {A} e.

Definition bind {A C : Type} (m : result A) (f : A -> result C) : result C :=
  match m with
  | Ok a => f a
  | Raise e => Raise e
  end.

Declare Scope py_scope.
Delimit Scope py_scope with py.
Notation "'let!' x ':=' m 'in' k" := (bind m (fun x => k))
  (at level 10, x name, m at level 100, k at level 200) : py_scope.
Notation "'run!' m 'in' k" := (bind m (fun _ => k))
  (at level 10, m at level 100, k at level 200) : py_scope.
Local Open Scope py_scope.

(** ** The [re] fragment the program uses

    Patterns over bytes: literals, the classes [[0-9]] (also [\d], which is
    ASCII-only in a bytes pattern), [.] (no DOTALL: anything but LF) and
    [[SW]]-like sets; concatenation; greedy [?] on a group; greedy [*], [+]
    and [{n}] on a single class; capture group 1; [^] under [re.MULTILINE];
    and the lookahead [(?=...)]. *)

Inductive cset : Type :=
| CByte (c : byte)
| CDigit
| CDot
| COneOf (l : bytes).

Definition is_digit (c : byte) : bool :=
  match c with
  | x30 | x31 | x32 | x33 | x34 | x35 | x36 | x37 | x38 | x39 => true
  | _ => false
  end.

Definition cset_mem (cs : cset) (x : byte) : bool :=
  match cs with
  | CByte c => Byte.eqb x c
  | CDigit => is_digit x
  | CDot => negb (Byte.eqb x LF)
  | COneOf l => existsb (Byte.eqb x) l
  end.

Inductive regex : Type :=
| Eps
| Chr (cs : cset)
| Cat (r1 r2 : regex)
| Opt (r : regex)
| Star (cs : cset)
| Plus (cs : cset)
| Rep (n : nat) (cs : cset)
| Grp (r : regex)
| Bol
| Ahead (r : regex).

(** A literal run of bytes. *)
Fixpoint Lit (s : bytes) : regex :=
  match s with
  | [] => Eps
  | c :: s' => Cat (Chr (CByte c)) (Lit s')
  end.

Declare Scope re_scope.
Delimit Scope re_scope with re.
Infix "⋅" := Cat (at level 40, left associativity) : re_scope.

(** Matcher position: the bytes already passed (most recent first), the
    bytes still ahead, and the text of group 1 when it has been closed. *)
Record cursor : Type := Cursor {
  seen : bytes;
  ahead : bytes;
  group1 : option bytes
}.

Definition pos (c : cursor) : nat := length (seen c).

(** [^] with [re.MULTILINE]: at the start of the subject or just after LF. *)
Definition at_bol (c : cursor) : bool :=
  match seen c with
  | [] => true
  | x :: _ => Byte.eqb x LF
  end.

Section Matcher.
Context {A : Type}.

(** Greedy repetition of one class, backtracking one byte at a time. *)
Fixpoint star (cs : cset) (sn rest : bytes) (g : option bytes)
         (k : cursor -> option A) : option A :=
  match rest with
  | x :: rest' =>
      if cset_mem cs x then
        match star cs (x :: sn) rest' g k with
        | Some a => Some a
        | None => k (Cursor sn rest g)
        end
      else k (Cursor sn rest g)
  | [] => k (Cursor sn rest g)
  end.

Definition chr (cs : cset) (c : cursor) (k : cursor -> option A) : option A :=
  match ahead c with
  | x :: rest' =>
      if cset_mem cs x then k (Cursor (x :: seen c) rest' (group1 c)) else None
  | [] => None
  end.

Fixpoint rep (n : nat) (cs : cset) (c : cursor) (k : cursor -> option A)
  : option A :=
  match n with
  | O => k c
  | S n' => chr cs c (fun c' => rep n' cs c' k)
  end.
End Matcher.

(** Backtracking matcher in continuation-passing style: [exec r c k] is the
    first way, in the engine's order of preference, of matching [r] at [c]
    that the rest of the pattern [k] accepts. *)
Fixpoint exec {A : Type} (r : regex) (c : cursor) (k : cursor -> option A)
  : option A :=
  match r with
  | Eps => k c
  | Chr cs => chr cs c k
  | Cat r1 r2 => exec r1 c (fun c' => exec r2 c' k)
  | Opt r1 =>
      match exec r1 c k with
      | Some a => Some a
      | None => k c
      end
  | Star cs => star cs (seen c) (ahead c) (group1 c) k
  | Plus cs => chr cs c (fun c' => star cs (seen c') (ahead c') (group1 c') k)
  | Rep n cs => rep n cs c k
  | Grp r1 =>
      exec r1 c (fun c' =>
        k (Cursor (seen c') (ahead c')
                  (Some (rev (take (pos c' - pos c) (seen c'))))))
  | Bol => if at_bol c then k c else None
  | Ahead r1 =>
      match exec r1 c Some with
      | Some c' => k (Cursor (seen c) (ahead c) (group1 c'))
      | None => None
      end
  end.

(** A match object: where it starts, where it ends and its group 1. *)
Record rmatch : Type := RMatch {
  m_start : nat;
  m_end : nat;
  m_group1 : option bytes
}.

Definition match_at (r : regex) (sn rest : bytes) : option rmatch :=
  match exec r (Cursor sn rest None) Some with
  | Some c' => Some (RMatch (length sn) (pos c') (group1 c'))
  | None => None
  end.

(** [re.match(r, s)]: a match at position 0 only. *)
Definition re_match (r : regex) (s : bytes) : option rmatch := match_at r [] s.

(** [re.search(r, s, re.MULTILINE)]: the leftmost position with a match. *)
Fixpoint search_from (r : regex) (sn rest : bytes) : option rmatch :=
  match match_at r sn rest with
  | Some m => Some m
  | None =>
      match rest with
      | x :: rest' => search_from r (x :: sn) rest'
      | [] => None
      end
  end.

Definition re_search (r : regex) (s : bytes) : option rmatch := search_from r [] s.

(** [r.finditer(s)]: the successive non-overlapping matches, left to right.
    [skip] counts the bytes of the previous match still to be passed; after
    an empty match the search moves on by one byte. *)
Fixpoint finditer_from (r : regex) (sn rest : bytes) (skip : nat) : list rmatch :=
  match skip with
  | S skip' =>
      match rest with
      | x :: rest' => finditer_from r (x :: sn) rest' skip'
      | [] => []
      end
  | O =>
      match match_at r sn rest with
      | Some m =>
          m :: match rest with
               | x :: rest' =>
                   finditer_from r (x :: sn) rest' (m_end m - m_start m - 1)
               | [] => []
               end
      | None =>
          match rest with
          | x :: rest' => finditer_from r (x :: sn) rest' O
          | [] => []
          end
      end
  end.

Definition is_Some_b {A : Type} (o : option A) : bool :=
  match o with
  | Some _ => true
  | None => false
  end.

Definition finditer (r : regex) (s : bytes) : list rmatch := finditer_from r [] s O.

(** ** Library functions the parser calls *)

(** [b.decode('ascii')]: fails on any byte above 0x7f. *)
Definition decode_ascii (s : bytes) : result bytes :=
  if forallb (fun c => ord c <? 128) s then Ok s else Raise UnicodeDecodeError.

(** Value of a digit in base 16, upper or lower case. *)
Definition hex_digit (c : byte) : option Z :=
  match c with
  | x30 => Some 0 | x31 => Some 1 | x32 => Some 2 | x33 => Some 3
  | x34 => Some 4 | x35 => Some 5 | x36 => Some 6 | x37 => Some 7
  | x38 => Some 8 | x39 => Some 9
  | x41 | x61 => Some 10 | x42 | x62 => Some 11 | x43 | x63 => Some 12
  | x44 | x64 => Some 13 | x45 | x65 => Some 14 | x46 | x66 => Some 15
  | _ => None
  end.

(** The digit scan of [int(text, 16)]: digits, with single underscores
    allowed between them; stops at the first other byte and returns the
    value read, whether a digit was read, and what is left. An underscore
    next to another or at the end is an error ([None]). *)
Fixpoint hex_scan (s : bytes) (acc : Z) (any prev_us : bool)
  : option (Z * bool * bytes) :=
  match s with
  | [] => if prev_us then None else Some (acc, any, [])
  | c :: s' =>
      if Byte.eqb c x5f then
        if prev_us then None else hex_scan s' acc any true
      else
        match hex_digit c with
        | Some d => hex_scan s' (16 * acc + d) true false
        | None => if prev_us then None else Some (acc, any, s)
        end
  end.

(** [int(text, 16)] on ASCII text: optional surrounding whitespace, an
    optional sign, an optional [0x] prefix (after which one underscore may
    come), then the digits. *)
Definition int16 (text : bytes) : result Z :=
  let s := lstrip text in
  let '(neg, s) :=
    match s with
    | x2b :: s' => (false, s')
    | x2d :: s' => (true, s')
    | _ => (false, s)
    end in
  let s :=
    match s with
    | x30 :: (x78 | x58) :: x5f :: s' => s'
    | x30 :: (x78 | x58) :: s' => s'
    | _ => s
    end in
  match s with
  | x5f :: _ => Raise ValueError
  | _ =>
      match hex_scan s 0 false false with
      | Some (v, true, rest) =>
          match lstrip rest with
          | [] => Ok (if neg then - v else v)
          | _ => Raise ValueError
          end
      | _ => Raise ValueError
      end
  end.

(** crcmod's predefined ['crc16']: polynomial 0x18005, bit-reversed
    algorithm, initial value 0, no final xor. The table entry of a byte is
    eight shift-and-xor steps with the reversed polynomial 0xA001. *)
Definition crc16_shift (crc : Z) : Z :=
  if Z.testbit crc 0
  then Z.lxor (Z.shiftr crc 1) 0xA001
  else Z.shiftr crc 1.

Definition crc16_table (i : Z) : Z :=
  Z.land (Nat.iter 8 crc16_shift i) 0xFFFF.

Definition crc16_update (crc : Z) (x : byte) : Z :=
  Z.lxor (crc16_table (Z.lxor (ord x) (Z.land crc 0xFF))) (Z.shiftr crc 8).

Definition crc16 (data : bytes) : Z := fold_left crc16_update data 0.

(** Python floats are IEEE 754 binary64 values. *)
Definition float : Type := spec_float.
Definition float_add : float -> float -> float := SFadd 53 1024.
Definition float_sub : float -> float -> float := SFsub 53 1024.

Definition digit_value (c : byte) : Z := ord c - 48.

Definition decimal_value (ds : bytes) : Z :=
  fold_left (fun acc c => 10 * acc + digit_value c) ds 0.

Fixpoint pow10 (k : nat) : positive :=
  match k with
  | O => 1%positive
  | S k' => (10 * pow10 k')%positive
  end.

(** The binary64 value nearest to [n / 10^k] (ties to even), which is what
    [float] returns for the decimal text of [n] with [k] fraction digits. *)
Definition float_of_ratio (n : Z) (k : nat) : float :=
  match n with
  | Zpos p =>
      SFdiv 53 1024 (S754_finite false p 0)
                    (S754_finite false (pow10 k) 0)
  | _ => S754_zero false
  end.

(** ** Python values held by the telegram record *)

Inductive pyval : Type :=
| PNone
| PInt (n : Z)
| PFloat (x : float)
| PStr (s : bytes).

(** Truth value, as [not v] tests it. *)
Definition truthy (v : pyval) : bool :=
  match v with
  | PNone => false
  | PInt n => negb (n =? 0)
  | PFloat x => negb (SFeqb x (S754_zero false))
  | PStr s => negb (bool_decide (s = []))
  end.

Fixpoint span_digits (s : bytes) : bytes * bytes :=
  match s with
  | c :: s' =>
      if is_digit c then let '(ds, r) := span_digits s' in (c :: ds, r)
      else ([], s)
  | [] => ([], [])
  end.

(** [float(text)] for text of the form digits [.] digits, the only form the
    patterns of the parser capture (see [captures_decimal]); the other
    spellings [float] accepts (sign, exponent, inf, nan, underscores,
    surrounding whitespace, a missing integer or fraction part) are left out
    and answered with [ValueError]. *)
Definition float_of_text (s : bytes) : result float :=
  let '(ip, r) := span_digits s in
  match ip, r with
  | _ :: _, x2e :: (_ :: _) as fp =>
      if forallb is_digit fp
      then Ok (float_of_ratio (decimal_value (ip ++ fp)) (length fp))
      else Raise ValueError
  | _, _ => Raise ValueError
  end.

(** [float(n)] for an integer within the range of the floats. *)
Definition float_of_int (n : Z) : float := binary_normalize 53 1024 n 0 false.

(** [float(v)]. *)
Definition py_float (v : pyval) : result pyval :=
  match v with
  | PNone => Raise TypeError
  | PInt n => Ok (PFloat (float_of_int n))
  | PFloat x => Ok (PFloat x)
  | PStr s => let! x := float_of_text s in Ok (PFloat x)
  end.

Definition as_float (v : pyval) : option float :=
  match v with
  | PInt n => Some (float_of_int n)
  | PFloat x => Some x
  | _ => None
  end.

(** [a + b] and [a - b] on numbers; [None] as an operand is a [TypeError]. *)
Definition py_add (a b : pyval) : result pyval :=
  match a, b with
  | PInt m, PInt n => Ok (PInt (m + n))
  | PStr s, PStr t => Ok (PStr (s ++ t))
  | _, _ =>
      match as_float a, as_float b with
      | Some x, Some y => Ok (PFloat (float_add x y))
      | _, _ => Raise TypeError
      end
  end.

Definition py_sub (a b : pyval) : result pyval :=
  match a, b with
  | PInt m, PInt n => Ok (PInt (m - n))
  | _, _ =>
      match as_float a, as_float b with
      | Some x, Some y => Ok (PFloat (float_sub x y))
      | _, _ => Raise TypeError
      end
  end.

(** [keys[k]] on a dict. *)
Definition getitem (keys : gmap string pyval) (k : string) : result pyval :=
  match keys !! k with
  | Some v => Ok v
  | None => Raise KeyError
  end.

(** ** P1Packet *)

(** The patterns of [P1Packet.__init__]. [obis_line code unit] is
    [^code\(([0-9]+\.[0-9]+)\*unit\)\r\n], with [code] and [unit] taken
    literally. *)
Definition obis_line (code unit : string) : regex :=
  (Bol ⋅ Lit (B code) ⋅ Lit (B "(")
     ⋅ Grp (Plus CDigit ⋅ Chr (CByte x2e) ⋅ Plus CDigit)
     ⋅ Lit (B "*") ⋅ Lit (B unit) ⋅ Lit (B ")") ⋅ Lit CRLF)%re.

(** [^(?:0-1:24\.2\.1(?:\(\d+[SW]\))?)?\(([0-9]{6}\.[0-9]{2})(?:\*m3)?\)\r\n] *)
Definition gas_line : regex :=
  (Bol
     ⋅ Opt (Lit (B "0-1:24.2.1")
              ⋅ Opt (Lit (B "(") ⋅ Plus CDigit ⋅ Chr (COneOf (B "SW")) ⋅ Lit (B ")")))
     ⋅ Lit (B "(")
     ⋅ Grp (Rep 6 CDigit ⋅ Chr (CByte x2e) ⋅ Rep 2 CDigit)
     ⋅ Opt (Lit (B "*m3")) ⋅ Lit (B ")") ⋅ Lit CRLF)%re.

(** [\r\n(?=!)], the pattern of [validate]. *)
Definition trailer_boundary : regex := (Lit CRLF ⋅ Ahead (Chr (CByte x21)))%re.

Section P1Packet.
Variable datagram : bytes.

(** [P1Packet.get] *)
Definition get (regex : regex) (default : pyval) : result pyval :=
  match re_search regex datagram with
  | None => Ok default
  | Some results =>
      match m_group1 results with
      | Some g => let! text := decode_ascii g in Ok (PStr text)
      | None => Raise AttributeError
      end
  end.

(** [P1Packet.get_float] *)
Definition get_float (regex : regex) (default : pyval) : result pyval :=
  let! result := get regex PNone in
  if negb (truthy result) then Ok default
  else let! text := get regex default in py_float text.

(** The locals [packet] and [checksum] after the [for] loop of
    [validate]: those of the last match, or unbound when there is none. *)
Definition trailer_split : option (bytes * bytes) :=
  fold_left
    (fun _ m => Some (take (m_end m + 1) datagram, drop (m_end m + 1) datagram))
    (finditer trailer_boundary datagram) None.

(** [int('0x' + checksum.decode('ascii').strip(), 16)] *)
Definition given_checksum (checksum : bytes) : result Z :=
  let! text := decode_ascii checksum in
  int16 (B "0x" ++ strip_with is_space_str text).

(** [P1Packet.validate] *)
Definition validate : result unit :=
  match trailer_split with
  | None => Raise UnboundLocalError
  | Some (packet, checksum) =>
      match strip checksum with
      | _ :: _ =>
          let! given := given_checksum checksum in
          let calculated_checksum := crc16 packet in
          if given =? calculated_checksum then Ok tt
          else Raise P1PacketError
      | [] => Ok tt
      end
  end.

(** The body of [P1Packet.__init__] after [self.validate()]. *)
Definition extract : result (gmap string pyval) :=
  let keys : gmap string pyval := ∅ in
  let! v := get_float (obis_line "1-0:1.8.1" "kWh") PNone in
  let keys := <["+T1" := v]> keys in
  let! v := get_float (obis_line "1-0:2.8.1" "kWh") PNone in
  let keys := <["-T1" := v]> keys in
  let! v := get_float (obis_line "1-0:1.8.2" "kWh") PNone in
  let keys := <["+T2" := v]> keys in
  let! v := get_float (obis_line "1-0:2.8.2" "kWh") PNone in
  let keys := <["-T2" := v]> keys in
  let! v := get_float (obis_line "1-0:1.7.0" "kW") PNone in
  let keys := <["+P" := v]> keys in
  let! v := get_float (obis_line "1-0:2.7.0" "kW") PNone in
  let keys := <["-P" := v]> keys in
  let! v := get_float (obis_line "1-0:32.7.0" "V") PNone in
  let keys := <["V_1" := v]> keys in
  let! v := get_float (obis_line "1-0:52.7.0" "V") PNone in
  let keys := <["V_2" := v]> keys in
  let! v := get_float (obis_line "1-0:72.7.0" "V") PNone in
  let keys := <["V_3" := v]> keys in
  let! v := get_float (obis_line "1-0:21.7.0" "kW") PNone in
  let keys := <["+P_1" := v]> keys in
  let! v := get_float (obis_line "1-0:41.7.0" "kW") PNone in
  let keys := <["+P_2" := v]> keys in
  let! v := get_float (obis_line "1-0:61.7.0" "kW") PNone in
  let keys := <["+P_3" := v]> keys in
  let! v := get_float (obis_line "1-0:22.7.0" "kW") PNone in
  let keys := <["-P_1" := v]> keys in
  let! v := get_float (obis_line "1-0:42.7.0" "kW") PNone in
  let keys := <["-P_2" := v]> keys in
  let! v := get_float (obis_line "1-0:62.7.0" "kW") PNone in
  let keys := <["-P_3" := v]> keys in
  let! a := getitem keys "+T1" in
  let! b := getitem keys "+T2" in
  let! v := py_add a b in
  let keys := <["+T" := v]> keys in
  let! a := getitem keys "-T1" in
  let! b := getitem keys "-T2" in
  let! v := py_add a b in
  let keys := <["-T" := v]> keys in
  let! a := getitem keys "+P" in
  let! b := getitem keys "-P" in
  let! v := py_sub a b in
  let keys := <["P" := v]> keys in
  let! v := get_float gas_line (PInt 0) in
  let keys := <["G" := v]> keys in
  Ok keys.

(** [P1Packet.__init__]: the [_keys] of the constructed packet. *)
Definition P1Packet : result (gmap string pyval) :=
  run! validate in extract.
End P1Packet.

(** [P1Packet.__getitem__], on the outcome of the constructor. *)
Definition P1Packet_getitem (packet : result (gmap string pyval)) (key : string)
  : result pyval :=
  let! keys := packet in getitem keys key.

(** ** SmartMeter.read_one_packet *)

(** [.*(?=/)] and [(?=!)], tried with [re.match] on each line. *)
Definition header_line : regex := (Star CDot ⋅ Ahead (Chr (CByte x2f)))%re.
Definition trailer_line : regex := Ahead (Chr (CByte x21)).

(** The locals of [read_one_packet]. *)
Record reader : Type := Reader {
  r_datagram : bytes;
  lines_read : nat;
  startFound : bool;
  endFound : bool
}.

(** Assigned once and never read. *)
Definition max_lines : nat := 35.

Definition reader_init : reader := Reader [] 0 false false.

(** One pass through the loop body with the line just read. *)
Definition read_line (st : reader) (line : bytes) : reader :=
  let n := S (lines_read st) in
  if is_Some_b (re_match header_line line) then
    Reader (lstrip line) n true false
  else if is_Some_b (re_match trailer_line line) then
    Reader (r_datagram st ++ line) n (startFound st) true
  else
    Reader (r_datagram st ++ line) n (startFound st) (endFound st).

(** What [self.serial.readline()] does at each call: it returns a line
    (empty or unterminated after a timeout) or raises. *)
Inductive readline : Type :=
| Line (l : bytes)
| Fails.

Definition transport : Type := nat -> readline.

(** A transport that delivers the given lines and then stays silent:
    each further [readline] times out and returns [b'']. *)
Definition lines_then_silence (ls : list bytes) : transport :=
  fun i => Line (nth i ls []).

(** The [while] loop, run for at most [fuel] lines from line [i] on.
    [None]: still looping when the fuel ran out. *)
Fixpoint read_loop (fuel : nat) (src : transport) (i : nat) (st : reader)
  : option (result reader) :=
  if negb (startFound st) || negb (endFound st) then
    match fuel with
    | O => None
    | S fuel' =>
        match src i with
        | Fails => Some (Raise SmartMeterError)
        | Line line => read_loop fuel' src (S i) (read_line st line)
        end
    end
  else Some (Ok st).

(** The datagram [read_one_packet] hands to [P1Packet]. *)
Definition read_one_frame (fuel : nat) (src : transport) : option (result bytes) :=
  match read_loop fuel src 0 reader_init with
  | Some (Ok st) => Some (Ok (r_datagram st))
  | Some (Raise e) => Some (Raise e)
  | None => None
  end.

Definition read_one_packet (fuel : nat) (src : transport)
  : option (result (gmap string pyval)) :=
  match read_one_frame fuel src with
  | Some (Ok datagram) => Some (P1Packet datagram)
  | Some (Raise e) => Some (Raise e)
  | None => None
  end.

(** ** Notions used to state the properties *)

(** What it means for a pattern to match between two positions,
    irrespective of the order in which the engine tries the ways. A
    lookahead is atomic: it keeps the one match the engine finds for it. *)
Inductive matches : regex -> cursor -> cursor -> Prop :=
| M_Eps c : matches Eps c c
| M_Chr cs x sn rest g :
    cset_mem cs x = true ->
    matches (Chr cs) (Cursor sn (x :: rest) g) (Cursor (x :: sn) rest g)
| M_Cat r1 r2 c c' c'' :
    matches r1 c c' -> matches r2 c' c'' -> matches (Cat r1 r2) c c''
| M_Opt_in r c c' : matches r c c' -> matches (Opt r) c c'
| M_Opt_out r c : matches (Opt r) c c
| M_Star_nil cs c : matches (Star cs) c c
| M_Star_cons cs c c' c'' :
    matches (Chr cs) c c' -> matches (Star cs) c' c'' -> matches (Star cs) c c''
| M_Plus cs c c' c'' :
    matches (Chr cs) c c' -> matches (Star cs) c' c'' -> matches (Plus cs) c c''
| M_Rep_O cs c : matches (Rep O cs) c c
| M_Rep_S n cs c c' c'' :
    matches (Chr cs) c c' -> matches (Rep n cs) c' c'' ->
    matches (Rep (S n) cs) c c''
| M_Grp r c c' :
    matches r c c' ->
    matches (Grp r) c
      (Cursor (seen c') (ahead c') (Some (rev (take (pos c' - pos c) (seen c')))))
| M_Bol c : at_bol c = true -> matches Bol c c
| M_Ahead r c c' :
    exec r c Some = Some c' ->
    matches (Ahead r) c (Cursor (seen c) (ahead c) (group1 c')).

(** [c'] is [c] moved forward over the word [w]. *)
Definition advance (c : cursor) (w : bytes) (c' : cursor) : Prop :=
  ahead c = w ++ ahead c' /\ seen c' = rev w ++ seen c.

(** [x >= 0.0] *)
Definition float_nonneg (x : float) : bool := SFleb (S754_zero false) x.

(** A number that is not negative. *)
Definition nonneg (v : pyval) : Prop :=
  match v with
  | PInt n => 0 <= n
  | PFloat x => float_nonneg x = true
  | _ => False
  end.

(** The value [get_float] yields, [None] standing in where it raises. *)
Definition field (datagram : bytes) (regex : regex) (default : pyval) : pyval :=
  match get_float datagram regex default with
  | Ok v => v
  | Raise _ => PNone
  end.

(** The declared fields: key, pattern and default, in the order in which
    [__init__] reads them. *)
Definition declared_fields : list (string * regex * pyval) :=
    [("+T1", obis_line "1-0:1.8.1" "kWh", PNone);
     ("-T1", obis_line "1-0:2.8.1" "kWh", PNone);
     ("+T2", obis_line "1-0:1.8.2" "kWh", PNone);
     ("-T2", obis_line "1-0:2.8.2" "kWh", PNone);
     ("+P", obis_line "1-0:1.7.0" "kW", PNone);
     ("-P", obis_line "1-0:2.7.0" "kW", PNone);
     ("V_1", obis_line "1-0:32.7.0" "V", PNone);
     ("V_2", obis_line "1-0:52.7.0" "V", PNone);
     ("V_3", obis_line "1-0:72.7.0" "V", PNone);
     ("+P_1", obis_line "1-0:21.7.0" "kW", PNone);
     ("+P_2", obis_line "1-0:41.7.0" "kW", PNone);
     ("+P_3", obis_line "1-0:61.7.0" "kW", PNone);
     ("-P_1", obis_line "1-0:22.7.0" "kW", PNone);
     ("-P_2", obis_line "1-0:42.7.0" "kW", PNone);
     ("-P_3", obis_line "1-0:62.7.0" "kW", PNone);
     ("G", gas_line, PInt 0)].

(** The six fields the derived ones are computed from. *)
Definition operand_fields : list (string * regex * pyval) := take 6 declared_fields.

(** The dict [__init__] builds, given the three derived values. *)
Definition keys_of (datagram : bytes) (pT mT P : pyval) : gmap string pyval :=
    <["G" := field datagram gas_line (PInt 0)]> (
    <["P" := P]> (
    <["-T" := mT]> (
    <["+T" := pT]> (
    <["-P_3" := field datagram (obis_line "1-0:62.7.0" "kW") PNone]> (
    <["-P_2" := field datagram (obis_line "1-0:42.7.0" "kW") PNone]> (
    <["-P_1" := field datagram (obis_line "1-0:22.7.0" "kW") PNone]> (
    <["+P_3" := field datagram (obis_line "1-0:61.7.0" "kW") PNone]> (
    <["+P_2" := field datagram (obis_line "1-0:41.7.0" "kW") PNone]> (
    <["+P_1" := field datagram (obis_line "1-0:21.7.0" "kW") PNone]> (
    <["V_3" := field datagram (obis_line "1-0:72.7.0" "V") PNone]> (
    <["V_2" := field datagram (obis_line "1-0:52.7.0" "V") PNone]> (
    <["V_1" := field datagram (obis_line "1-0:32.7.0" "V") PNone]> (
    <["-P" := field datagram (obis_line "1-0:2.7.0" "kW") PNone]> (
    <["+P" := field datagram (obis_line "1-0:1.7.0" "kW") PNone]> (
    <["-T2" := field datagram (obis_line "1-0:2.8.2" "kWh") PNone]> (
    <["+T2" := field datagram (obis_line "1-0:1.8.2" "kWh") PNone]> (
    <["-T1" := field datagram (obis_line "1-0:2.8.1" "kWh") PNone]> (
    <["+T1" := field datagram (obis_line "1-0:1.8.1" "kWh") PNone]> (
    ∅))))))))))))))))))).

(** A pattern whose group 1 is always digits, a dot, digits. *)
Definition captures_decimal (r : regex) : Prop :=
  forall c c', matches r c c' ->
    exists ip fp,
      ip <> [] /\ fp <> [] /\
      forallb is_digit ip = true /\ forallb is_digit fp = true /\
      group1 c' = Some (ip ++ x2e :: fp).

(** [s] begins with a line boundary followed by the trailer marker. *)
Definition starts_boundary (s : bytes) : bool :=
  match s with
  | a :: b :: c :: _ => Byte.eqb a CR && Byte.eqb b LF && Byte.eqb c x21
  | _ => false
  end.

(** A line boundary immediately before the trailer marker occurs in [s]. *)
Fixpoint has_boundary (s : bytes) : bool :=
  match s with
  | [] => false
  | _ :: s' => starts_boundary s || has_boundary s'
  end.

(** Where the boundaries of [s] end, [n] being the position of its start. *)
Fixpoint boundary_ends (n : nat) (s : bytes) : list nat :=
  match s with
  | [] => []
  | _ :: s' =>
      (if starts_boundary s then [S (S n)] else []) ++ boundary_ends (S n) s'
  end.

(** The match object of the boundary that ends at [e]. *)
Definition boundary_match (e : nat) : rmatch := RMatch (e - 2) e None.

(** ** Sample telegrams *)

(** The telegram of the specification's example, up to its last data line. *)
Definition example_lines : bytes :=
  B "/ISK5" ++ CRLF
  ++ B "1-0:1.8.1(000123.456*kWh)" ++ CRLF
  ++ B "1-0:2.8.1(000010.000*kWh)".

(** The same telegram with its true checksum, 0x518D. *)
Definition example_frame : bytes := example_lines ++ CRLF ++ x21 :: B "518D" ++ CRLF.

(** A telegram with the six operand fields and no gas line. *)
Definition six_lines : bytes :=
  B "/ISK5" ++ CRLF
  ++ B "1-0:1.8.1(000123.456*kWh)" ++ CRLF
  ++ B "1-0:1.8.2(000234.567*kWh)" ++ CRLF
  ++ B "1-0:2.8.1(000010.000*kWh)" ++ CRLF
  ++ B "1-0:2.8.2(000020.500*kWh)" ++ CRLF
  ++ B "1-0:1.7.0(00.250*kW)" ++ CRLF
  ++ B "1-0:2.7.0(01.500*kW)".

Definition six_frame : bytes := six_lines ++ CRLF ++ x21 :: B "F2F9" ++ CRLF.

(** The same with a gas reading on a line of its own, without OBIS code or
    unit. *)
Definition gas_frame : bytes :=
  (six_lines ++ CRLF ++ B "(123456.78)") ++ CRLF ++ x21 :: B "A779" ++ CRLF.

(** A header line, the six operand lines and 34 more data lines: 41 lines,
    the last 40 of them body lines, and then the trailer. *)
Definition long_telegram : list bytes :=
  [B "/ISK5" ++ CRLF;
   B "1-0:1.8.1(000123.456*kWh)" ++ CRLF;
   B "1-0:1.8.2(000234.567*kWh)" ++ CRLF;
   B "1-0:2.8.1(000010.000*kWh)" ++ CRLF;
   B "1-0:2.8.2(000020.500*kWh)" ++ CRLF;
   B "1-0:1.7.0(00.250*kW)" ++ CRLF;
   B "1-0:2.7.0(01.500*kW)" ++ CRLF]
  ++ repeat (B "0-0:96.13.0()" ++ CRLF) 34
  ++ [B "!" ++ CRLF].

(** The specification's wording for what is kept of a header line: the
    line "stripped of any leading bytes before the marker". *)
Fixpoint from_marker (line : bytes) : bytes :=
  match line with
  | [] => []
  | c :: line' => if Byte.eqb c x2f then line else from_marker line'
  end.

Definition not_LF (c : byte) : bool := negb (Byte.eqb c LF).

(** ** The checksum digits *)




(** ** Frame assembly, line by line *)

(** How [read_one_packet] takes a line: the tests of its [if] and [elif],
    in their order. *)
Inductive line_kind : Type :=
| HeaderLine
| TrailerLine
| BodyLine.

Definition classify (line : bytes) : line_kind :=
  if is_Some_b (re_match header_line line) then HeaderLine
  else if is_Some_b (re_match trailer_line line) then TrailerLine
  else BodyLine.

Definition is_body (line : bytes) : bool :=
  match classify line with
  | BodyLine => true
  | _ => false
  end.

(** Whether the lines hold a trailer line after a header line, [started]
    telling whether a header line came before them. *)
Fixpoint completes (started : bool) (ls : list bytes) : bool :=
  match ls with
  | [] => false
  | l :: ls' =>
      match classify l with
      | HeaderLine => completes true ls'
      | TrailerLine => started || completes started ls'
      | BodyLine => completes started ls'
      end
  end.

(** The locals after the loop body has run on each of the lines. *)
Definition run_lines (st : reader) (ls : list bytes) : reader :=
  fold_left read_line ls st.

(** The transport delivers the lines [ls] from its call number [i] on. *)
Definition delivers (src : transport) (i : nat) (ls : list bytes) : Prop :=
  forall m, (m < length ls)%nat -> src (i + m)%nat = Line (nth m ls []).

(** A transport that delivers the given lines and then fails. *)
Definition lines_then_failure (ls : list bytes) : transport :=
  fun i => if (i <? length ls)%nat then Line (nth i ls []) else Fails.

(** The loop has not completed a frame: [endFound] is clear whenever
    [startFound] is set. *)
Definition pending (st : reader) : Prop :=
  startFound st = true -> endFound st = false.

(** Whether one of the lines is a header line. *)
Definition has_header (ls : list bytes) : bool :=
  existsb (fun l => match classify l with HeaderLine => true | _ => false end) ls.

(** The keys of the dict [__init__] builds, in the order of its assignments. *)
Definition record_keys : list string :=
  ["+T1"; "-T1"; "+T2"; "-T2"; "+P"; "-P"; "V_1"; "V_2"; "V_3";
   "+P_1"; "+P_2"; "+P_3"; "-P_1"; "-P_2"; "-P_3"; "+T"; "-T"; "P"; "G"]%string.

(** ** [get_int] *)

(** The digit scan of [int(text)]: decimal digits, with single underscores
    allowed between them; stops at the first other byte and returns the
    value read, the number of digits read, and what is left. An underscore
    next to another or at the end is an error ([None]). *)
Fixpoint dec_scan (s : bytes) (acc : Z) (digits : nat) (prev_us : bool)
  : option (Z * nat * bytes) :=
  match s with
  | [] => if prev_us then None else Some (acc, digits, [])
  | c :: s' =>
      if Byte.eqb c x5f then
        if prev_us then None else dec_scan s' acc digits true
      else if is_digit c then dec_scan s' (10 * acc + digit_value c) (S digits) false
      else if prev_us then None else Some (acc, digits, s)
  end.

Section GetInt.
(** [sys.get_int_max_str_digits()]: 0 where the limit is switched off or
    the interpreter has none, otherwise at least 640 (4300 by default). *)
Variable max_str_digits : nat.

(** [int(text)] on ASCII text: optional surrounding whitespace (on ASCII
    text the six bytes of [is_space]; 0x1c-0x1f do not count here), an
    optional sign, then the digits. More than 640 digits are refused when
    they exceed the limit. *)
Definition int10 (text : bytes) : result Z :=
  let s := lstrip text in
  let '(neg, s) :=
    match s with
    | x2b :: s' => (false, s')
    | x2d :: s' => (true, s')
    | _ => (false, s)
    end in
  match s with
  | x5f :: _ => Raise ValueError
  | _ =>
      match dec_scan s 0 0 false with
      | Some (v, S _ as digits, rest) =>
          if (640 <? digits)%nat && (0 <? max_str_digits)%nat
             && (max_str_digits <? digits)%nat
          then Raise ValueError
          else
            match lstrip rest with
            | [] => Ok (if neg then - v else v)
            | _ => Raise ValueError
            end
      | _ => Raise ValueError
      end
  end.

(** [int(v)] for the values [get] returns, a str or [None], and for an int.
    A float is truncated towards zero; of the floats that have no integer
    value the NaN is a [ValueError], as are here the infinities, where
    Python has an [OverflowError] that no path of the record can reach. *)
Definition py_int (v : pyval) : result pyval :=
  match v with
  | PNone => Raise TypeError
  | PInt n => Ok (PInt n)
  | PFloat (S754_zero _) => Ok (PInt 0)
  | PFloat (S754_finite s m e) =>
      let a := Z.shiftl (Zpos m) e in Ok (PInt (if s then - a else a))
  | PFloat _ => Raise ValueError
  | PStr s => let! n := int10 s in Ok (PInt n)
  end.

(** [P1Packet.get_int] *)
Definition get_int (datagram : bytes) (regex : regex) (default : pyval)
  : result pyval :=
  let! result := get datagram regex PNone in
  if negb (truthy result) then Ok default
  else py_int result.
End GetInt.

(** Patterns whose group holds digits only: any number of them, and at
    least one. *)
Definition digits_opt : regex := Grp (Star CDigit).
Definition digits_run : regex := Grp (Plus CDigit).

(** ** send_to_influxdb *)

(** Text of the command line and of the request is kept as its UTF-8
    bytes in a [string]. The separator [=] is one byte and part of no other
    character, so [split] and the tags it yields come out as in Python. *)

(** [s.split(sep)] for a separator of one character. *)
Fixpoint split_on (sep : Ascii.ascii) (s : string) : list string :=
  match s with
  | EmptyString => [EmptyString]
  | String c s' =>
      if Ascii.eqb c sep then EmptyString :: split_on sep s'
      else
        match split_on sep s' with
        | h :: t => String c h :: t
        | [] => [String c EmptyString]
        end
  end.

(** The character [=]. *)
Definition equals_sign : Ascii.ascii := Ascii.ascii_of_byte x3d.

(** The values [options.influx_tags] takes: a str, which is what the
    argument parser stores for its optional positional argument, or a list
    of strs. *)
Inductive tags_arg : Type :=
| TagText (s : string)
| TagList (l : list string).

(** The items of [for tag in options.influx_tags]: the characters of a
    str, the elements of a list. *)
Definition tag_items (t : tags_arg) : list string :=
  match t with
  | TagText s => map (fun c => String c EmptyString) (String.list_ascii_of_string s)
  | TagList l => l
  end.

(** The attributes of [options] the program reads. *)
Record options : Type := Options {
  device : string;
  baudrate : pyval;
  influx_hostname : string;
  influx_port : Z;
  influx_username : string;
  influx_password : string;
  influx_database : string;
  influx_retention_policy : option string;
  influx_path : string;
  influx_ssl : bool;
  influx_measurement : string;
  influx_tags : option tags_arg
}.

(** The dict [req]. *)
Record point : Type := Point {
  measurement : string;
  tags : gmap string string;
  fields : gmap string pyval
}.

(** The client that is built and its one call, [write_points]. *)
Record write_call : Type := WriteCall {
  w_hostname : string;
  w_port : Z;
  w_username : string;
  w_password : string;
  w_client_database : string;
  w_ssl : bool;
  w_verify_ssl : bool;
  w_path : string;
  w_points : list point;
  w_retention_policy : option string;
  w_database : string
}.

(** What ends the sender or the monitor: an exception of the reader or of
    the record, the [IndexError] of the tag loop, or an exception of the
    InfluxDB client. *)
Inductive fault : Type :=
| Exn (e : exn)
| IndexError
| ClientError.

Definition is_None (v : pyval) : bool :=
  match v with
  | PNone => true
  | _ => false
  end.

(** [tag_kv = tag.split('='); req['tags'][tag_kv[0]] = tag_kv[1]];
    [None] stands for the [IndexError] of [tag_kv[1]]. *)
Definition add_tag (acc : option (gmap string string)) (tag : string)
  : option (gmap string string) :=
  match acc with
  | Some tags =>
      match split_on equals_sign tag with
      | k :: v :: _ => Some (<[k := v]> tags)
      | _ => None
      end
  | None => None
  end.

(** The tag loop. *)
Definition request_tags (t : option tags_arg) : option (gmap string string) :=
  match t with
  | None => Some ∅
  | Some t => fold_left add_tag (tag_items t) (Some ∅)
  end.

(** The field loop. *)
Definition request_fields (fields : gmap string pyval) : gmap string pyval :=
  filter (fun kv => is_None kv.2 = false) fields.

Definition client_call (o : options) (req : point) : write_call :=
  WriteCall (influx_hostname o) (influx_port o) (influx_username o)
            (influx_password o) (influx_database o) (influx_ssl o) true
            (influx_path o) [req] (influx_retention_policy o) (influx_database o).

(** What the InfluxDB client does at each call of [write_points], the
    calls being numbered from 0: it returns ([true]) or raises. *)
Definition database : Type := nat -> bool.

(** [send_to_influxdb], given the calls issued so far: the exception it
    ends with, if any, and the calls issued. *)
Definition send_to_influxdb (db : database) (o : options)
    (fields : gmap string pyval) (log : list write_call)
  : option fault * list write_call :=
  match request_tags (influx_tags o) with
  | None => (Some IndexError, log)
  | Some tags =>
      let req := Point (influx_measurement o) tags (request_fields fields) in
      (if db (length log) then None else Some ClientError,
       log ++ [client_call o req])
  end.

(** ** SmartMeter and start_monitor *)

(** The serial port object held by a [SmartMeter]. *)
Record serial_port : Type := Serial {
  name : string;
  port_baudrate : pyval;
  is_open : bool;
  rts : bool
}.

(** What [serial.Serial(port, baudrate, ...)] does: it opens the port, or
    raises [SerialException], [OSError] or something else. *)
Inductive open_outcome : Type :=
| Opened
| SerialException
| OSError
| OtherError (e : exn).

Section Monitor.
Variable Serial_open : string -> pyval -> open_outcome.
Variable db : database.

(** [SmartMeter.__init__(self, port, *args, **kwargs)] *)
Definition SmartMeter (port : string) (args : list pyval)
    (kwargs : gmap string pyval) : result serial_port :=
  let baudrate := default (PInt 115200) (kwargs !! "baudrate"%string) in
  match Serial_open port baudrate with
  | Opened => Ok (Serial port baudrate true false)
  | SerialException | OSError => Raise SmartMeterError
  | OtherError e => Raise e
  end.

(** [SmartMeter.disconnect] *)
Definition disconnect (m : serial_port) : serial_port :=
  if is_open m then Serial (name m) (port_baudrate m) false (rts m) else m.

(** [SmartMeter.connected] *)
Definition connected (m : serial_port) : bool := is_open m.

(** The transport after its first [n] calls. *)
Definition skip_lines (src : transport) (n : nat) : transport :=
  fun i => src (n + i)%nat.

(** The calls of [readline] a call of [read_one_packet] makes. *)
Definition lines_taken (fuel : nat) (src : transport) : nat :=
  match read_loop fuel src 0 reader_init with
  | Some (Ok st) => lines_read st
  | _ => 0%nat
  end.

(** The [while True] loop of [start_monitor]; [fuel] bounds the telegrams
    and, for each of them, the lines read. [None]: still running when the
    fuel ran out; otherwise the exception that ended it and the calls
    issued. *)
Fixpoint monitor_loop (fuel : nat) (o : options) (src : transport)
    (log : list write_call) : option (fault * list write_call) :=
  match fuel with
  | O => None
  | S fuel' =>
      match read_one_packet fuel' src with
      | None => None
      | Some (Raise e) => Some (Exn e, log)
      | Some (Ok keys) =>
          match send_to_influxdb db o keys log with
          | (Some f, log') => Some (f, log')
          | (None, log') =>
              monitor_loop fuel' o (skip_lines src (lines_taken fuel' src)) log'
          end
      end
  end.

(** How the monitor ended: the exception, the meter after the [finally]
    clause (none when its constructor raised), and the calls issued. *)
Record monitor_end : Type := MonitorEnd {
  raised : fault;
  meter : option serial_port;
  written : list write_call
}.

(** [start_monitor] *)
Definition start_monitor (fuel : nat) (o : options) (src : transport)
  : option monitor_end :=
  match SmartMeter (device o) [baudrate o] ∅ with
  | Raise e => Some (MonitorEnd (Exn e) None [])
  | Ok m =>
      match monitor_loop fuel o src [] with
      | None => None
      | Some (f, log) => Some (MonitorEnd f (Some (disconnect m)) log)
      end
  end.
End Monitor.

(** The options with another [baudrate]. *)
Definition with_baudrate (o : options) (b : pyval) : options :=
  Options (device o) b (influx_hostname o) (influx_port o) (influx_username o)
          (influx_password o) (influx_database o) (influx_retention_policy o)
          (influx_path o) (influx_ssl o) (influx_measurement o) (influx_tags o).

(** The options of a run without arguments, and with one tag argument. *)
Definition default_options : options :=
  Options "/dev/ttyUSB0" (PStr (B "115200")) "localhost" 8086 "root" "root"
          "p1smartmeter" None "" false "smartmeter" None.

Definition tagged_options (tag : string) : options :=
  Options "/dev/ttyUSB0" (PStr (B "115200")) "localhost" 8086 "root" "root"
          "p1smartmeter" None "" false "smartmeter" (Some (TagText tag)).

(** The lines of [six_frame]. *)
Definition six_frame_lines : list bytes :=
  [B "/ISK5" ++ CRLF;
   B "1-0:1.8.1(000123.456*kWh)" ++ CRLF;
   B "1-0:1.8.2(000234.567*kWh)" ++ CRLF;
   B "1-0:2.8.1(000010.000*kWh)" ++ CRLF;
   B "1-0:2.8.2(000020.500*kWh)" ++ CRLF;
   B "1-0:1.7.0(00.250*kW)" ++ CRLF;
   B "1-0:2.7.0(01.500*kW)" ++ CRLF;
   x21 :: B "F2F9" ++ CRLF].

(** A port that opens and a database that accepts every write. *)
Definition port_opens : string -> pyval -> open_outcome := fun _ _ => Opened.
Definition db_accepts : database := fun _ => true.

(** ** The matcher finds only matches *)

Lemma star_sound {A : Type} cs rest : forall sn g (k : cursor -> option A) a,
  star cs sn rest g k = Some a ->
  exists c', matches (Star cs) (Cursor sn rest g) c' /\ k c' = Some a.
Proof.
  induction rest as [|x rest IH]; intros sn g k a H; simpl in H.
  - eexists; split; [apply M_Star_nil | exact H].
  - destruct (cset_mem cs x) eqn:Hx.
    + destruct (star cs (x :: sn) rest g k) as [a'|] eqn:Hs.
      * inversion H; subst a'. apply IH in Hs as (c' & Hm & Hk).
        exists c'. split; [|exact Hk].
        eapply M_Star_cons; [apply M_Chr; exact Hx | exact Hm].
      * eexists; split; [apply M_Star_nil | exact H].
    + eexists; split; [apply M_Star_nil | exact H].
Qed.

Lemma chr_sound {A : Type} cs c (k : cursor -> option A) a :
  chr cs c k = Some a ->
  exists c', matches (Chr cs) c c' /\ k c' = Some a.
Proof.
  destruct c as [sn rest g]. unfold chr; simpl.
  destruct rest as [|x rest]; [discriminate|].
  destruct (cset_mem cs x) eqn:Hx; [|discriminate].
  intros H. eexists; split; [apply M_Chr; exact Hx | exact H].
Qed.

Lemma rep_sound {A : Type} cs n : forall c (k : cursor -> option A) a,
  rep n cs c k = Some a ->
  exists c', matches (Rep n cs) c c' /\ k c' = Some a.
Proof.
  induction n as [|n IH]; intros c k a H; simpl in H.
  - eexists; split; [apply M_Rep_O | exact H].
  - apply chr_sound in H as (c1 & Hm1 & H).
    apply IH in H as (c2 & Hm2 & H).
    exists c2; split; [eapply M_Rep_S; eassumption | exact H].
Qed.

Lemma exec_sound r : forall (A : Type) c (k : cursor -> option A) a,
  exec r c k = Some a ->
  exists c', matches r c c' /\ k c' = Some a.
Proof.
  induction r as [|cs|r1 IH1 r2 IH2|r1 IH1|cs|cs|n cs|r1 IH1| |r1 IH1];
    intros A c k a H; simpl in H.
  - eexists; split; [constructor | exact H].
  - apply chr_sound in H. exact H.
  - apply IH1 in H as (c1 & Hm1 & H). apply IH2 in H as (c2 & Hm2 & H).
    exists c2; split; [econstructor; eassumption | exact H].
  - destruct (exec r1 c k) as [a'|] eqn:He.
    + inversion H; subst a'. apply IH1 in He as (c1 & Hm1 & He).
      exists c1; split; [apply M_Opt_in; exact Hm1 | exact He].
    + exists c; split; [apply M_Opt_out | exact H].
  - apply star_sound in H. destruct c; exact H.
  - apply chr_sound in H as (c1 & Hm1 & H).
    apply star_sound in H as (c2 & Hm2 & H).
    exists c2; split; [|exact H].
    eapply M_Plus; [exact Hm1 | destruct c1; exact Hm2].
  - apply rep_sound in H. exact H.
  - apply IH1 in H as (c1 & Hm1 & H).
    eexists; split; [apply M_Grp; exact Hm1 | exact H].
  - destruct (at_bol c) eqn:Hb; [|discriminate].
    exists c; split; [apply M_Bol; exact Hb | exact H].
  - destruct (exec r1 c Some) as [c1|] eqn:He; [|discriminate].
    eexists; split; [apply M_Ahead; exact He | exact H].
Qed.

(** ** The matcher misses no match *)

Lemma star_complete {A : Type} cs rest : forall sn g (k : cursor -> option A),
  (forall c', matches (Star cs) (Cursor sn rest g) c' -> k c' = None) ->
  star cs sn rest g k = None.
Proof.
  induction rest as [|x rest IH]; intros sn g k H; simpl.
  - apply H, M_Star_nil.
  - destruct (cset_mem cs x) eqn:Hx; [|apply H, M_Star_nil].
    rewrite IH; [apply H, M_Star_nil|].
    intros c' Hm. apply H. eapply M_Star_cons; [apply M_Chr; exact Hx | exact Hm].
Qed.

Lemma chr_complete {A : Type} cs c (k : cursor -> option A) :
  (forall c', matches (Chr cs) c c' -> k c' = None) -> chr cs c k = None.
Proof.
  destruct c as [sn rest g]. unfold chr; simpl. intros H.
  destruct rest as [|x rest]; [reflexivity|].
  destruct (cset_mem cs x) eqn:Hx; [|reflexivity].
  apply H, M_Chr, Hx.
Qed.

Lemma rep_complete {A : Type} cs n : forall c (k : cursor -> option A),
  (forall c', matches (Rep n cs) c c' -> k c' = None) -> rep n cs c k = None.
Proof.
  induction n as [|n IH]; intros c k H; simpl.
  - apply H, M_Rep_O.
  - apply chr_complete. intros c1 H1. apply IH. intros c2 H2.
    apply H. eapply M_Rep_S; eassumption.
Qed.

Lemma exec_complete r : forall (A : Type) c (k : cursor -> option A),
  (forall c', matches r c c' -> k c' = None) -> exec r c k = None.
Proof.
  induction r as [|cs|r1 IH1 r2 IH2|r1 IH1|cs|cs|n cs|r1 IH1| |r1 IH1];
    intros A c k H; simpl.
  - apply H, M_Eps.
  - apply chr_complete, H.
  - apply IH1. intros c1 H1. apply IH2. intros c2 H2.
    apply H. econstructor; eassumption.
  - rewrite IH1; [apply H, M_Opt_out|].
    intros c1 H1. apply H, M_Opt_in, H1.
  - apply star_complete. destruct c; exact H.
  - apply chr_complete. intros c1 H1. apply star_complete. intros c2 H2.
    apply H. eapply M_Plus; [exact H1 | destruct c1; exact H2].
  - apply rep_complete, H.
  - apply IH1. intros c1 H1. apply H, M_Grp, H1.
  - destruct (at_bol c) eqn:Hb; [|reflexivity]. apply H, M_Bol, Hb.
  - destruct (exec r1 c Some) as [c1|] eqn:He; [|reflexivity].
    apply H, M_Ahead, He.
Qed.

Lemma star_pass {A : Type} cs rest : forall sn g (k : cursor -> option A),
  star cs sn rest g k = None -> k (Cursor sn rest g) = None.
Proof.
  destruct rest as [|x rest]; intros sn g k H; simpl in H; [exact H|].
  destruct (cset_mem cs x); [|exact H].
  destruct (star cs (x :: sn) rest g k); [discriminate H | exact H].
Qed.

Lemma star_none {A : Type} cs c c' :
  matches (Star cs) c c' ->
  forall (k : cursor -> option A),
    star cs (seen c) (ahead c) (group1 c) k = None -> k c' = None.
Proof.
  intros Hm. remember (Star cs) as r eqn:Hr.
  induction Hm; inversion Hr; subst; intros k H.
  - destruct c. apply star_pass in H. exact H.
  - match goal with H : matches (Chr _) _ _ |- _ => inv H end.
    cbn [seen ahead group1 star] in H.
    match goal with H : cset_mem _ _ = true |- _ => rewrite H in * end.
    destruct (star cs (x :: sn) rest g k) eqn:E; [discriminate H|].
    apply (IHHm2 eq_refl). exact E.
Qed.

Lemma chr_none {A : Type} cs c c' (k : cursor -> option A) :
  matches (Chr cs) c c' -> chr cs c k = None -> k c' = None.
Proof.
  intros Hm. inv Hm. unfold chr. cbn [seen ahead group1].
  match goal with H : cset_mem _ _ = true |- _ => rewrite H end.
  intros H; exact H.
Qed.

Lemma rep_none {A : Type} cs n : forall c c' (k : cursor -> option A),
  matches (Rep n cs) c c' -> rep n cs c k = None -> k c' = None.
Proof.
  induction n as [|n IH]; intros c c' k Hm H; inv Hm; simpl in H.
  - exact H.
  - eapply IH; [eassumption|].
    eapply (chr_none cs c _ (fun c1 => rep n cs c1 k)); eassumption.
Qed.

Lemma exec_none r : forall (A : Type) c c' (k : cursor -> option A),
  matches r c c' -> exec r c k = None -> k c' = None.
Proof.
  induction r as [|cs|r1 IH1 r2 IH2|r1 IH1|cs|cs|n cs|r1 IH1| |r1 IH1];
    intros A c c' k Hm H; simpl in H.
  - inv Hm. exact H.
  - eapply chr_none; eassumption.
  - inv Hm. eapply IH2; [eassumption|].
    eapply (IH1 _ _ _ (fun c1 => exec r2 c1 k)); eassumption.
  - destruct (exec r1 c k) eqn:E; [discriminate H|].
    inv Hm; [eapply IH1; eassumption | exact H].
  - eapply star_none; eassumption.
  - inv Hm. eapply star_none; [eassumption|].
    eapply (chr_none cs c _ (fun c1 => star cs (seen c1) (ahead c1) (group1 c1) k));
      eassumption.
  - eapply rep_none; eassumption.
  - inv Hm.
    eapply (IH1 _ _ _ (fun c1 => k (Cursor (seen c1) (ahead c1)
                                  (Some (rev (take (pos c1 - pos c) (seen c1)))))));
      eassumption.
  - inv Hm. match goal with H : at_bol _ = true |- _ => rewrite H in * end. exact H.
  - inv Hm. match goal with H : exec _ _ Some = Some _ |- _ => rewrite H in * end.
    exact H.
Qed.

(** The matcher fails at a position exactly when the pattern has no match
    there. *)
Lemma match_at_None r sn rest :
  match_at r sn rest = None <-> forall c', ~ matches r (Cursor sn rest None) c'.
Proof.
  unfold match_at. split.
  - destruct (exec r _ Some) as [c1|] eqn:He; [discriminate|].
    intros _ c' Hm. apply (exec_none r _ _ _ Some Hm) in He. discriminate He.
  - intros H. rewrite exec_complete; [reflexivity|].
    intros c' Hm. destruct (H c' Hm).
Qed.

(** [re.search] finds nothing exactly when the pattern matches at no
    position of the subject. *)
Lemma search_from_None r rest : forall sn,
  search_from r sn rest = None
  <-> forall pre suf c', rest = pre ++ suf ->
        ~ matches r (Cursor (rev pre ++ sn) suf None) c'.
Proof.
  induction rest as [|x rest IH]; intros sn; simpl.
  - destruct (match_at r sn []) eqn:E.
    + split; [discriminate|]. intros H. exfalso.
      assert (match_at r sn [] = None) as E'
        by (apply match_at_None; intros c'; apply (H [] [] c'); reflexivity).
      congruence.
    + split; [|reflexivity]. intros _ pre suf c' Hps.
      symmetry in Hps. apply app_eq_nil in Hps as [-> ->].
      apply match_at_None. exact E.
  - destruct (match_at r sn (x :: rest)) eqn:E.
    + split; [discriminate|]. intros H. exfalso.
      assert (match_at r sn (x :: rest) = None) as E'
        by (apply match_at_None; intros c'; apply (H [] (x :: rest) c'); reflexivity).
      congruence.
    + rewrite IH. split.
      * intros H pre suf c' Hps. destruct pre as [|y pre].
        -- simpl in Hps. subst suf. apply match_at_None. exact E.
        -- inv Hps. cbn [rev]. rewrite <- app_assoc. apply H. reflexivity.
      * intros H pre suf c' Hps. subst rest.
        specialize (H (x :: pre) suf c' eq_refl). cbn [rev] in H.
        rewrite <- app_assoc in H. exact H.
Qed.

Lemma re_search_None r d :
  re_search r d = None
  <-> forall pre suf c', d = pre ++ suf -> ~ matches r (Cursor (rev pre) suf None) c'.
Proof.
  unfold re_search. rewrite search_from_None. split; intros H pre suf c' Hps.
  - specialize (H pre suf c' Hps). rewrite app_nil_r in H. exact H.
  - rewrite app_nil_r. exact (H pre suf c' Hps).
Qed.

(** Every match moves forward over some word of the subject. *)
Lemma matches_advance r c c' :
  matches r c c' -> exists w, advance c w c'.
Proof.
  unfold advance.
  induction 1 as [c|cs x sn rest g Hx|r1 r2 c c1 c2 _ [w1 [Ha1 Hs1]] _ [w2 [Ha2 Hs2]]
                 |r c c1 _ IH|r c|cs c
                 |cs c c1 c2 _ [w1 [Ha1 Hs1]] _ [w2 [Ha2 Hs2]]
                 |cs c c1 c2 _ [w1 [Ha1 Hs1]] _ [w2 [Ha2 Hs2]]
                 |cs c
                 |n cs c c1 c2 _ [w1 [Ha1 Hs1]] _ [w2 [Ha2 Hs2]]
                 |r c c1 _ IH|c Hb|r c c1 _];
    try (exists []; split; reflexivity);
    try (exists (w1 ++ w2); rewrite Ha1, Ha2, Hs2, Hs1, rev_app_distr, !app_assoc;
         split; reflexivity);
    try exact IH.
  exists [x]; split; reflexivity.
Qed.

Lemma matches_Chr cs c c' :
  matches (Chr cs) c c' ->
  exists x, cset_mem cs x = true /\ advance c [x] c' /\ group1 c' = group1 c.
Proof. intros H; inv H. exists x. repeat split; assumption. Qed.

Lemma matches_Lit s : forall c c',
  matches (Lit s) c c' -> advance c s c' /\ group1 c' = group1 c.
Proof.
  unfold advance. induction s as [|x s IH]; intros c c' H; simpl in H.
  - inv H. repeat split.
  - inv H. match goal with H : matches (Chr _) _ _ |- _ => inv H end.
    match goal with H : matches (Lit _) _ _ |- _ => apply IH in H as [[Ha Hs] Hg] end.
    simpl in *. rewrite Ha, Hs, <- app_assoc.
    match goal with H : Byte.eqb _ _ = true |- _ => apply Byte.byte_dec_bl in H; subst end.
    repeat split; assumption.
Qed.

Lemma matches_Star cs c c' :
  matches (Star cs) c c' ->
  exists w, forallb (cset_mem cs) w = true /\ advance c w c' /\ group1 c' = group1 c.
Proof.
  unfold advance. intros H. remember (Star cs) as r eqn:Hr.
  induction H; inversion Hr; subst.
  - exists []. repeat split.
  - destruct (IHmatches2 eq_refl) as (w & Hw & [Ha Hs] & Hg).
    match goal with H : matches (Chr _) _ _ |- _ => inv H end. simpl in *.
    exists (x :: w). simpl. rewrite Ha, Hs, <- app_assoc.
    repeat split; try assumption. apply andb_true_intro; split; assumption.
Qed.

Lemma matches_Plus cs c c' :
  matches (Plus cs) c c' ->
  exists w, w <> [] /\ forallb (cset_mem cs) w = true /\ advance c w c'
            /\ group1 c' = group1 c.
Proof.
  unfold advance. intros H; inv H.
  match goal with H : matches (Star _) _ _ |- _ =>
    apply matches_Star in H as (w & Hw & [Ha Hs] & Hg) end.
  match goal with H : matches (Chr _) _ _ |- _ => inv H end. simpl in *.
  exists (x :: w). simpl. rewrite Ha, Hs, <- app_assoc.
  repeat split; try assumption; [discriminate|].
  apply andb_true_intro; split; assumption.
Qed.

Lemma matches_Rep cs n : forall c c',
  matches (Rep n cs) c c' ->
  exists w, length w = n /\ forallb (cset_mem cs) w = true /\ advance c w c'
            /\ group1 c' = group1 c.
Proof.
  unfold advance. induction n as [|n IH]; intros c c' H; inv H.
  - exists []. repeat split.
  - match goal with H : matches (Rep _ _) _ _ |- _ =>
      apply IH in H as (w & Hl & Hw & [Ha Hs] & Hg) end.
    match goal with H : matches (Chr _) _ _ |- _ => inv H end. simpl in *.
    exists (x :: w). simpl. rewrite Ha, Hs, <- app_assoc.
    repeat split; try assumption; try reflexivity.
    apply andb_true_intro; split; assumption.
Qed.

(** The text a group records is the word its body moved over. *)
Lemma group_word c w c' :
  advance c w c' -> rev (take (pos c' - pos c) (seen c')) = w.
Proof.
  intros [_ Hs]. unfold pos. rewrite Hs, length_app, length_rev.
  replace (length w + length (seen c) - length (seen c))%nat with (length (rev w))
    by (rewrite length_rev; lia).
  rewrite take_app_length. apply rev_involutive.
Qed.

Lemma advance_app c1 w1 c2 w2 c3 :
  advance c1 w1 c2 -> advance c2 w2 c3 -> advance c1 (w1 ++ w2) c3.
Proof.
  intros [Ha1 Hs1] [Ha2 Hs2]. unfold advance.
  rewrite Ha1, Ha2, Hs2, Hs1, rev_app_distr, !app_assoc. split; reflexivity.
Qed.

(** Takes a match apart into the moves of its pieces. *)
Ltac pieces :=
  repeat match goal with
  | H : matches (Lit _) _ _ |- _ => apply matches_Lit in H as [? ?]
  | H : matches (Cat _ _) _ _ |- _ => inv H
  | H : matches Eps _ _ |- _ => inv H
  | H : matches Bol _ _ |- _ => inv H
  | H : matches (Opt _) _ _ |- _ => inv H
  | H : matches (Chr _) _ _ |- _ => apply matches_Chr in H as (? & ? & ? & ?)
  | H : matches (Plus _) _ _ |- _ => apply matches_Plus in H as (? & ? & ? & ? & ?)
  | H : matches (Rep _ _) _ _ |- _ => apply matches_Rep in H as (? & ? & ? & ? & ?)
  end.

(** Reads off the text of a group whose body is digits, a dot, digits. *)
Ltac decimal_group :=
  match goal with
  | H1 : advance ?a ?ip ?b, H2 : advance ?b [?x] ?d, H3 : advance ?d ?fp ?e,
    Hx : cset_mem (CByte x2e) ?x = true |- _ =>
      let Hw := fresh "Hw" in
      pose proof (group_word _ _ _
                    (advance_app _ _ _ _ _ (advance_app _ _ _ _ _ H1 H2) H3)) as Hw;
      simpl in Hx; apply Byte.byte_dec_bl in Hx; subst x;
      exists ip, fp;
      simpl in *; rewrite <- app_assoc in Hw; simpl in Hw;
      repeat split; try assumption; congruence
  end.

(** What a match of an OBIS line captures: digits, a dot, digits. *)
Lemma matches_obis_line code unit c c' :
  matches (obis_line code unit) c c' ->
  exists ip fp,
    ip <> [] /\ fp <> [] /\
    forallb is_digit ip = true /\ forallb is_digit fp = true /\
    group1 c' = Some (ip ++ x2e :: fp).
Proof.
  unfold obis_line. intros H. pieces.
  match goal with H : matches (Grp _) _ _ |- _ => inv H end.
  pieces. decimal_group.
Qed.

(** What a match of the gas line captures: six digits, a dot, two digits. *)
Lemma matches_gas_line c c' :
  matches gas_line c c' ->
  exists ip fp,
    length ip = 6%nat /\ length fp = 2%nat /\
    forallb is_digit ip = true /\ forallb is_digit fp = true /\
    group1 c' = Some (ip ++ x2e :: fp).
Proof.
  unfold gas_line. intros H. pieces;
    (match goal with H : matches (Grp _) _ _ |- _ => inv H end);
    pieces; decimal_group.
Qed.

(** ** What [get] and [get_float] return on the patterns of the parser *)

Lemma search_from_sound r rest : forall sn m,
  search_from r sn rest = Some m ->
  exists c c', group1 c = None /\ matches r c c' /\ m_group1 m = group1 c'.
Proof.
  induction rest as [|x rest IH]; intros sn m H; simpl in H;
    unfold match_at in H;
    destruct (exec r _ Some) as [c'|] eqn:He;
    try (inv H; apply exec_sound in He as (c1 & Hm & Hk); inv Hk;
         eexists _, _; split; [|split; [exact Hm|]]; reflexivity);
    try discriminate.
  apply IH in H. exact H.
Qed.

Lemma is_digit_ascii c : is_digit c = true -> (ord c <? 128) = true.
Proof. destruct c; simpl; intros H; try discriminate H; reflexivity. Qed.

Lemma forallb_digit_ascii s :
  forallb is_digit s = true -> forallb (fun c => ord c <? 128) s = true.
Proof.
  induction s as [|c s IH]; simpl; [reflexivity|].
  intros H. apply andb_prop in H as [Hc Hs].
  rewrite (is_digit_ascii c Hc), (IH Hs). reflexivity.
Qed.

Lemma decode_ascii_decimal ip fp :
  forallb is_digit ip = true -> forallb is_digit fp = true ->
  decode_ascii (ip ++ x2e :: fp) = Ok (ip ++ x2e :: fp).
Proof.
  intros Hi Hf. unfold decode_ascii.
  rewrite forallb_app. simpl.
  rewrite (forallb_digit_ascii _ Hi), (forallb_digit_ascii _ Hf). reflexivity.
Qed.

Lemma span_digits_decimal ip r :
  forallb is_digit ip = true -> span_digits (ip ++ x2e :: r) = (ip, x2e :: r).
Proof.
  induction ip as [|c ip IH]; simpl; [reflexivity|].
  intros H. apply andb_prop in H as [Hc Hs]. rewrite Hc, (IH Hs). reflexivity.
Qed.

Lemma float_of_text_decimal ip fp :
  ip <> [] -> fp <> [] ->
  forallb is_digit ip = true -> forallb is_digit fp = true ->
  float_of_text (ip ++ x2e :: fp)
  = Ok (float_of_ratio (decimal_value (ip ++ fp)) (length fp)).
Proof.
  intros Hi Hf Hdi Hdf. unfold float_of_text.
  rewrite (span_digits_decimal _ _ Hdi).
  destruct ip as [|a ip]; [contradiction|].
  destruct fp as [|b fp]; [contradiction|].
  rewrite Hdf. reflexivity.
Qed.

Section GetFloat.
Variable datagram : bytes.
Variable regex : regex.
Variable default : pyval.

Lemma get_float_absent :
  re_search regex datagram = None -> get_float datagram regex default = Ok default.
Proof. intros H. unfold get_float, get. rewrite H. reflexivity. Qed.

Lemma get_float_found m ip fp :
  re_search regex datagram = Some m ->
  m_group1 m = Some (ip ++ x2e :: fp) ->
  ip <> [] -> fp <> [] ->
  forallb is_digit ip = true -> forallb is_digit fp = true ->
  get_float datagram regex default
  = Ok (PFloat (float_of_ratio (decimal_value (ip ++ fp)) (length fp))).
Proof.
  intros Hs Hg Hi Hf Hdi Hdf. unfold get_float, get. rewrite Hs, Hg.
  rewrite (decode_ascii_decimal _ _ Hdi Hdf). simpl.
  destruct ip as [|a ip]; [contradiction|]. simpl.
  change (a :: ip ++ x2e :: fp) with ((a :: ip) ++ x2e :: fp).
  rewrite (float_of_text_decimal _ _ Hi Hf Hdi Hdf). reflexivity.
Qed.
End GetFloat.

(** ** Floats read from unsigned decimal text are not negative *)

Section Rounding.
Variables prec emax : Z.

Lemma shr_1_nonneg mrs : 0 <= shr_m mrs -> 0 <= shr_m (shr_1 mrs).
Proof.
  destruct mrs as [m r s]; simpl.
  destruct m as [|[p|p|]|p]; simpl; lia.
Qed.

Lemma iter_shr_1_nonneg p : forall mrs,
  0 <= shr_m mrs -> 0 <= shr_m (iter_pos shr_1 p mrs).
Proof.
  induction p as [p IH|p IH|]; intros mrs H; simpl.
  - apply IH, IH, shr_1_nonneg, H.
  - apply IH, IH, H.
  - apply shr_1_nonneg, H.
Qed.

Lemma shr_fexp_nonneg m e l :
  0 <= m -> 0 <= shr_m (fst (shr_fexp prec emax m e l)).
Proof.
  intros H. unfold shr_fexp, shr.
  assert (0 <= shr_m (shr_record_of_loc m l)) as H0
    by (destruct l as [|[]]; exact H).
  destruct (fexp prec emax (Zdigits2 m + e) - e); simpl;
    [exact H0 | apply iter_shr_1_nonneg, H0 | exact H0].
Qed.

Lemma round_nearest_even_nonneg m l : 0 <= m -> 0 <= round_nearest_even m l.
Proof.
  intros H. destruct l as [|[]]; simpl; try lia.
  destruct (Z.even m); lia.
Qed.

Lemma binary_round_aux_nonneg m e l :
  0 <= m -> float_nonneg (binary_round_aux prec emax false m e l) = true.
Proof.
  intros H. unfold binary_round_aux.
  pose proof (shr_fexp_nonneg m e l H) as H1.
  destruct (shr_fexp prec emax m e l) as [mrs' e']. simpl in H1.
  pose proof (shr_fexp_nonneg _ e' loc_Exact
                (round_nearest_even_nonneg _ (loc_of_shr_record mrs') H1)) as H2.
  destruct (shr_fexp prec emax (round_nearest_even _ _) e' loc_Exact)
    as [mrs'' e'']. simpl in H2.
  destruct (shr_m mrs'') as [|q|q]; [reflexivity| |lia].
  destruct (e'' <=? emax - prec); reflexivity.
Qed.

Lemma SFdiv_nonneg p q :
  float_nonneg (SFdiv prec emax (S754_finite false p 0) (S754_finite false q 0))
  = true.
Proof.
  unfold SFdiv, SFdiv_core_binary.
  set (s := 0 - 0 - _).
  set (m' := match s with Z0 => Z.pos p | Z.pos _ => Z.shiftl (Z.pos p) s
                     | Z.neg _ => 0 end).
  assert (0 <= m') as Hm.
  { subst m'. destruct s; [lia | apply Z.shiftl_nonneg; lia | lia]. }
  pose proof (Z.div_pos m' (Z.pos q) Hm eq_refl) as Hq.
  unfold Z.div in Hq.
  destruct (Z.div_eucl m' (Z.pos q)) as [q0 r0].
  apply binary_round_aux_nonneg, Hq.
Qed.
End Rounding.

Lemma float_of_ratio_nonneg n k : float_nonneg (float_of_ratio n k) = true.
Proof.
  unfold float_of_ratio. destruct n; try reflexivity. apply SFdiv_nonneg.
Qed.

(** The sum of two floats that are not negative is not negative. *)
Lemma float_add_nonneg x y :
  float_nonneg x = true -> float_nonneg y = true ->
  float_nonneg (float_add x y) = true.
Proof.
  destruct x as [sx|[]| |[] mx ex], y as [sy|[]| |[] my ey];
    try discriminate; try reflexivity; intros _ _.
  - destruct sx, sy; reflexivity.
  - unfold float_add, SFadd, binary_normalize. cbn [cond_Zopp].
    generalize (fst (shl_align mx ex (Z.min ex ey)))
               (fst (shl_align my ey (Z.min ex ey))).
    intros a b. change (Z.pos a + Z.pos b) with (Z.pos (a + b)). cbv beta iota.
    unfold binary_round. destruct (shl_align (a + b) _ _) as [mz ez].
    apply binary_round_aux_nonneg. lia.
Qed.

Lemma obis_line_decimal code unit : captures_decimal (obis_line code unit).
Proof. intros c c'. apply matches_obis_line. Qed.

Lemma gas_line_decimal : captures_decimal gas_line.
Proof.
  intros c c' H. apply matches_gas_line in H as (ip & fp & Hi & Hf & H).
  exists ip, fp. split; [|split]; [intros -> ..| exact H]; discriminate.
Qed.

Lemma declared_fields_decimal k r dflt :
  In (k, r, dflt) declared_fields -> captures_decimal r.
Proof.
  unfold declared_fields. simpl. intros H.
  repeat (destruct H as [H|H];
          [inversion H; first [apply obis_line_decimal | apply gas_line_decimal]|]).
  contradiction.
Qed.

Section Field.
Variable datagram : bytes.
Variable regex : regex.
Variable default : pyval.
Hypothesis Hdec : captures_decimal regex.

(** On these patterns [get_float] never raises. *)
Lemma get_float_field :
  get_float datagram regex default = Ok (field datagram regex default).
Proof.
  unfold field. destruct (re_search regex datagram) as [m|] eqn:Hs.
  - pose proof Hs as Hs'. apply search_from_sound in Hs' as (c & c' & _ & Hm & Hg).
    apply Hdec in Hm as (ip & fp & Hi & Hf & Hdi & Hdf & Hc).
    rewrite Hc in Hg.
    rewrite (get_float_found _ _ _ _ _ _ Hs Hg Hi Hf Hdi Hdf). reflexivity.
  - rewrite (get_float_absent _ _ _ Hs). reflexivity.
Qed.

Lemma field_absent :
  re_search regex datagram = None -> field datagram regex default = default.
Proof. intros Hs. unfold field. rewrite (get_float_absent _ _ _ Hs). reflexivity. Qed.

Lemma field_found m :
  re_search regex datagram = Some m ->
  exists ip fp,
    ip <> [] /\ fp <> [] /\
    forallb is_digit ip = true /\ forallb is_digit fp = true /\
    m_group1 m = Some (ip ++ x2e :: fp) /\
    field datagram regex default
    = PFloat (float_of_ratio (decimal_value (ip ++ fp)) (length fp)).
Proof.
  intros Hs. pose proof Hs as Hs'.
  apply search_from_sound in Hs' as (c & c' & _ & Hm & Hg).
  apply Hdec in Hm as (ip & fp & Hi & Hf & Hdi & Hdf & Hc).
  rewrite Hc in Hg. exists ip, fp. repeat split; try assumption.
  unfold field. rewrite (get_float_found _ _ _ _ _ _ Hs Hg Hi Hf Hdi Hdf).
  reflexivity.
Qed.

(** A field is its default or a float that is not negative. *)
Lemma field_cases :
  (re_search regex datagram = None /\ field datagram regex default = default)
  \/ (exists x, field datagram regex default = PFloat x /\ float_nonneg x = true).
Proof.
  destruct (re_search regex datagram) as [m|] eqn:Hs.
  - right. destruct (field_found m Hs) as (ip & fp & _ & _ & _ & _ & _ & Hf).
    eexists; split; [exact Hf | apply float_of_ratio_nonneg].
  - left. split; [reflexivity | apply field_absent, Hs].
Qed.
End Field.

(** ** The dict built by [__init__] *)

Lemma bind_Ok {A C : Type} (a : A) (f : A -> result C) : bind (Ok a) f = f a.
Proof. reflexivity. Qed.

Lemma bind_Raise {A C : Type} (e : exn) (f : A -> result C) :
  bind (Raise e) f = Raise e.
Proof. reflexivity. Qed.

Lemma getitem_insert_eq (keys : gmap string pyval) k v :
  getitem (<[k := v]> keys) k = Ok v.
Proof. unfold getitem. rewrite lookup_insert_eq. reflexivity. Qed.

Lemma getitem_insert_ne (keys : gmap string pyval) k k' v :
  k <> k' -> getitem (<[k := v]> keys) k' = getitem keys k'.
Proof. intros H. unfold getitem. rewrite lookup_insert_ne by exact H. reflexivity. Qed.

(** Steps through the assignments of [__init__] once the fields are read. *)
Ltac run_init :=
  repeat first
    [ rewrite bind_Ok; cbv beta
    | rewrite bind_Raise
    | rewrite getitem_insert_eq
    | rewrite getitem_insert_ne by discriminate ].

Lemma extract_keys datagram :
  extract datagram =
  let f code unit := field datagram (obis_line code unit) PNone in
  let! pT := py_add (f "1-0:1.8.1" "kWh") (f "1-0:1.8.2" "kWh") in
  let! mT := py_add (f "1-0:2.8.1" "kWh") (f "1-0:2.8.2" "kWh") in
  let! P := py_sub (f "1-0:1.7.0" "kW") (f "1-0:2.7.0" "kW") in
  Ok (keys_of datagram pT mT P).
Proof.
  unfold extract, keys_of.
  rewrite !(fun c u => get_float_field datagram _ PNone (obis_line_decimal c u)).
  rewrite (get_float_field datagram _ (PInt 0) gas_line_decimal).
  cbv zeta.
  repeat match goal with
  | |- context [field datagram ?r ?v] => generalize (field datagram r v); intro
  end.
  run_init.
  destruct (py_add _ _) as [pT|e]; run_init; [|reflexivity].
  destruct (py_add _ _) as [mT|e]; run_init; [|reflexivity].
  destruct (py_sub _ _) as [P|e]; run_init; reflexivity.
Qed.

Lemma keys_of_declared datagram pT mT P k r dflt :
  In (k, r, dflt) declared_fields ->
  keys_of datagram pT mT P !! k = Some (field datagram r dflt).
Proof.
  unfold declared_fields. simpl. intros H.
  repeat (destruct H as [H|H];
          [inversion H; unfold keys_of;
           repeat (rewrite lookup_insert_eq || rewrite lookup_insert_ne by done);
           reflexivity|]).
  contradiction.
Qed.

(** ** Where [validate] cuts the datagram *)

Lemma match_at_boundary sn rest :
  match_at trailer_boundary sn rest
  = if starts_boundary rest
    then Some (RMatch (length sn) (S (S (length sn))) None)
    else None.
Proof.
  unfold match_at, trailer_boundary, starts_boundary. simpl. unfold chr. simpl.
  destruct rest as [|a [|b [|c rest]]]; simpl; try reflexivity.
  - destruct (Byte.eqb a CR); reflexivity.
  - destruct (Byte.eqb a CR); simpl; [|reflexivity].
    destruct (Byte.eqb b LF); reflexivity.
  - destruct (Byte.eqb a CR); simpl; [|reflexivity].
    destruct (Byte.eqb b LF); simpl; [|reflexivity].
    destruct (Byte.eqb c x21); reflexivity.
Qed.

Lemma starts_boundary_LF s : starts_boundary (LF :: s) = false.
Proof. destruct s as [|b [|c s]]; reflexivity. Qed.

Lemma finditer_boundary n : forall rest sn,
  (length rest <= n)%nat ->
  finditer_from trailer_boundary sn rest 0
  = map boundary_match (boundary_ends (length sn) rest).
Proof.
  induction n as [|n IH]; intros rest sn Hn.
  - destruct rest; [|simpl in Hn; lia]. cbn [finditer_from].
    rewrite match_at_boundary. reflexivity.
  - destruct rest as [|a rest]; cbn [finditer_from].
    + rewrite match_at_boundary. reflexivity.
    + rewrite match_at_boundary. cbn [boundary_ends].
      destruct (starts_boundary (a :: rest)) eqn:Hb.
      * cbn [m_end m_start].
        replace (S (S (length sn)) - length sn - 1)%nat with 1%nat by lia.
        destruct rest as [|b [|c rest]]; try discriminate Hb.
        simpl in Hb. apply andb_prop in Hb as [Hab Hc].
        apply andb_prop in Hab as [Ha Hb].
        apply Byte.byte_dec_bl in Hb. subst b.
        change (finditer_from trailer_boundary (a :: sn) (LF :: c :: rest) 1)
          with (finditer_from trailer_boundary (LF :: a :: sn) (c :: rest) 0).
        rewrite IH by (simpl in Hn |- *; lia).
        change (boundary_ends (S (length sn)) (LF :: c :: rest))
          with ((if starts_boundary (LF :: c :: rest)
                 then [S (S (S (length sn)))] else [])
                ++ boundary_ends (S (S (length sn))) (c :: rest)).
        rewrite starts_boundary_LF. cbn [app map length].
        unfold boundary_match. f_equal. f_equal. lia.
      * rewrite IH by (simpl in Hn; lia). reflexivity.
Qed.

Lemma fold_left_last {A C : Type} (f : A -> C) (l : list A) : forall init,
  fold_left (fun _ m => Some (f m)) l init
  = match last l with Some m => Some (f m) | None => init end.
Proof.
  induction l as [|x l IH]; intros init; [reflexivity|].
  simpl fold_left. rewrite IH. destruct l as [|y l]; [reflexivity|].
  rewrite last_cons_cons. destruct (last (y :: l)) eqn:E; [reflexivity|].
  apply last_None in E. discriminate E.
Qed.

Lemma last_map {A C : Type} (f : A -> C) (l : list A) :
  last (map f l) = option_map f (last l).
Proof.
  induction l as [|x [|y l] IH]; try reflexivity.
  change (map f (x :: y :: l)) with (f x :: f y :: map f l).
  rewrite !last_cons_cons. exact IH.
Qed.

Lemma has_boundary_ends s : forall n,
  has_boundary s = false -> boundary_ends n s = [].
Proof.
  induction s as [|a s IH]; intros n H; [reflexivity|].
  cbn [has_boundary] in H. apply orb_false_elim in H as [H1 H2].
  cbn [boundary_ends]. rewrite H1, (IH _ H2). reflexivity.
Qed.

Lemma boundary_ends_last pre rem : forall n,
  has_boundary rem = false ->
  last (boundary_ends n (pre ++ CRLF ++ x21 :: rem)) = Some (n + length pre + 2)%nat.
Proof.
  induction pre as [|a pre IH]; intros n H.
  - cbn. rewrite (has_boundary_ends _ _ H).
    destruct rem as [|b [|c rem]]; simpl; f_equal; lia.
  - cbn [app boundary_ends]. specialize (IH (S n) H).
    rewrite last_app, IH. cbn [length]. f_equal. lia.
Qed.

Section TrailerSplit.
Variables pre rem : bytes.
Hypothesis Hrem : has_boundary rem = false.

(** [validate] cuts just after the marker of the last trailer boundary. *)
Lemma trailer_split_last :
  trailer_split (pre ++ CRLF ++ x21 :: rem) = Some (pre ++ CRLF ++ [x21], rem).
Proof.
  unfold trailer_split, finditer.
  rewrite (finditer_boundary _ _ _ (Nat.le_refl _)), fold_left_last.
  cbn [length]. rewrite last_map, (boundary_ends_last _ _ _ Hrem).
  cbn [option_map m_end boundary_match].
  replace (0 + length pre + 2 + 1)%nat with (length (pre ++ CRLF ++ [x21]))
    by (rewrite !length_app; simpl; lia).
  replace (pre ++ CRLF ++ x21 :: rem) with ((pre ++ CRLF ++ [x21]) ++ rem)
    by (rewrite <- !app_assoc; reflexivity).
  rewrite take_app_length, drop_app_length. reflexivity.
Qed.
End TrailerSplit.

Lemma trailer_split_none d :
  has_boundary d = false -> trailer_split d = None.
Proof.
  intros H. unfold trailer_split, finditer.
  rewrite (finditer_boundary _ _ _ (Nat.le_refl _)), (has_boundary_ends _ _ H).
  reflexivity.
Qed.

(** ** Stripping whitespace *)

Lemma lstrip_with_nil sp s : lstrip_with sp s = [] <-> forallb sp s = true.
Proof.
  induction s as [|c s IH]; simpl; [tauto|].
  destruct (sp c); simpl; [exact IH|]. split; discriminate.
Qed.

Lemma lstrip_with_head sp s c t : lstrip_with sp s = c :: t -> sp c = false.
Proof.
  induction s as [|a s IH]; simpl; [discriminate|].
  destruct (sp a) eqn:Ha; [exact IH|]. intros H; inversion H; subst. exact Ha.
Qed.

Lemma lstrip_with_spaces sp w c t :
  forallb sp w = true -> sp c = false -> lstrip_with sp (w ++ c :: t) = c :: t.
Proof.
  intros Hw Hc. induction w as [|a w IH]; simpl.
  - rewrite Hc. reflexivity.
  - simpl in Hw. apply andb_prop in Hw as [Ha Hw]. rewrite Ha. exact (IH Hw).
Qed.

Lemma forallb_rev {A : Type} (f : A -> bool) l : forallb f (rev l) = forallb f l.
Proof.
  induction l as [|x l IH]; [reflexivity|].
  simpl. rewrite forallb_app, IH. simpl. rewrite andb_true_r. apply andb_comm.
Qed.

Lemma strip_with_nil sp s : strip_with sp s = [] <-> forallb sp s = true.
Proof.
  unfold strip_with. split.
  - intros H. apply (f_equal (@rev byte)) in H. rewrite rev_involutive in H.
    simpl in H. apply lstrip_with_nil in H. rewrite forallb_rev in H.
    destruct (lstrip_with sp s) as [|c t] eqn:E.
    + apply lstrip_with_nil, E.
    + apply lstrip_with_head in E. simpl in H. rewrite E in H. discriminate H.
  - intros H. apply lstrip_with_nil in H. rewrite H. reflexivity.
Qed.

Lemma spaces_no_boundary s : forallb is_space s = true -> has_boundary s = false.
Proof.
  induction s as [|a s IH]; [reflexivity|].
  intros H. simpl in H. apply andb_prop in H as [Ha Hs].
  cbn [has_boundary]. rewrite (IH Hs), orb_false_r.
  destruct s as [|b [|c s]]; try reflexivity.
  simpl in Hs. apply andb_prop in Hs as [_ Hs]. apply andb_prop in Hs as [Hc _].
  simpl. destruct (Byte.eqb c x21) eqn:E; [|apply andb_false_r].
  apply Byte.byte_dec_bl in E. subst c. discriminate Hc.
Qed.

(** The occurrences [has_boundary] looks for. *)
Lemma has_boundary_spec s :
  has_boundary s = true <-> exists p q, s = p ++ CRLF ++ x21 :: q.
Proof.
  split.
  - induction s as [|a s IH]; [discriminate|].
    cbn [has_boundary]. intros H. apply orb_prop in H as [H|H].
    + destruct s as [|b [|c s]]; try discriminate H.
      simpl in H. apply andb_prop in H as [H Hc]. apply andb_prop in H as [Ha Hb].
      apply Byte.byte_dec_bl in Ha, Hb, Hc. subst.
      exists [], s. reflexivity.
    + destruct (IH H) as (p & q & ->). exists (a :: p), q. reflexivity.
  - intros (p & q & ->). induction p as [|a p IH].
    + destruct q; reflexivity.
    + cbn [app has_boundary]. cbn [app] in IH. rewrite IH. apply orb_true_r.
Qed.

(** ** Reading the checksum digits *)

Lemma hex_digit_ascii c v : hex_digit c = Some v -> (ord c <? 128) = true.
Proof. destruct c; simpl; intros H; try discriminate H; reflexivity. Qed.

Lemma hex_digit_not_space c v : hex_digit c = Some v -> is_space_str c = false.
Proof. destruct c; simpl; intros H; try discriminate H; reflexivity. Qed.

Lemma hex_digit_not_underscore c v : hex_digit c = Some v -> Byte.eqb c x5f = false.
Proof. destruct c; simpl; intros H; try discriminate H; reflexivity. Qed.

Lemma is_space_ascii c : is_space c = true -> (ord c <? 128) = true.
Proof. destruct c; simpl; intros H; try discriminate H; reflexivity. Qed.

Lemma is_space_str_incl c : is_space c = true -> is_space_str c = true.
Proof. destruct c; simpl; intros H; try discriminate H; reflexivity. Qed.

Lemma forallb_impl {A : Type} (f g : A -> bool) l :
  (forall x, f x = true -> g x = true) -> forallb f l = true -> forallb g l = true.
Proof.
  intros Hfg. induction l as [|x l IH]; simpl; [reflexivity|].
  intros H. apply andb_prop in H as [Hx Hl]. rewrite (Hfg _ Hx), (IH Hl). reflexivity.
Qed.

Lemma hex_scan_digit c v s acc any :
  hex_digit c = Some v ->
  hex_scan (c :: s) acc any false = hex_scan s (16 * acc + v) true false.
Proof.
  intros H. simpl. rewrite (hex_digit_not_underscore _ _ H), H. reflexivity.
Qed.

Lemma int16_0x c v s :
  hex_digit c = Some v ->
  int16 (x30 :: x78 :: c :: s)
  = match hex_scan s v true false with
    | Some (n, true, rest) =>
        match lstrip rest with
        | [] => Ok n
        | _ => Raise ValueError
        end
    | _ => Raise ValueError
    end.
Proof.
  destruct c; simpl hex_digit; intros H; try discriminate H;
    injection H as <-; reflexivity.
Qed.

Section FourDigits.
Variables h1 h2 h3 h4 : byte.
Variables v1 v2 v3 v4 : Z.
Variable ws : bytes.
Hypothesis H1 : hex_digit h1 = Some v1.
Hypothesis H2 : hex_digit h2 = Some v2.
Hypothesis H3 : hex_digit h3 = Some v3.
Hypothesis H4 : hex_digit h4 = Some v4.
Hypothesis Hws : forallb is_space ws = true.

Lemma strip_four_digits :
  strip_with is_space_str ([h1; h2; h3; h4] ++ ws) = [h1; h2; h3; h4].
Proof.
  unfold strip_with. cbn [app lstrip_with].
  rewrite (hex_digit_not_space _ _ H1).
  change (h1 :: h2 :: h3 :: h4 :: ws) with ([h1; h2; h3] ++ h4 :: ws).
  rewrite rev_app_distr. cbn [rev app].
  rewrite <- !app_assoc. cbn [app].
  rewrite lstrip_with_spaces; [reflexivity| |exact (hex_digit_not_space _ _ H4)].
  rewrite forallb_rev. apply (forallb_impl is_space); [apply is_space_str_incl|exact Hws].
Qed.

(** Four hex digits and then whitespace are read as the number they spell. *)
Lemma given_checksum_four_digits :
  given_checksum ([h1; h2; h3; h4] ++ ws)
  = Ok (4096 * v1 + 256 * v2 + 16 * v3 + v4).
Proof.
  unfold given_checksum, decode_ascii.
  replace (forallb (fun c => ord c <? 128) ([h1; h2; h3; h4] ++ ws)) with true.
  - rewrite bind_Ok, strip_four_digits.
    change (B "0x" ++ [h1; h2; h3; h4]) with (x30 :: x78 :: h1 :: [h2; h3; h4]).
    rewrite (int16_0x _ _ _ H1).
    rewrite (hex_scan_digit _ _ _ _ _ H2), (hex_scan_digit _ _ _ _ _ H3),
      (hex_scan_digit _ _ _ _ _ H4).
    cbn [hex_scan lstrip lstrip_with]. f_equal. lia.
  - symmetry. cbn [app forallb].
    rewrite (hex_digit_ascii _ _ H1), (hex_digit_ascii _ _ H2),
      (hex_digit_ascii _ _ H3), (hex_digit_ascii _ _ H4).
    apply (forallb_impl is_space); [apply is_space_ascii|exact Hws].
Qed.
End FourDigits.





Lemma int16_raises text e : int16 text = Raise e -> e = ValueError.
Proof.
  unfold int16.
  destruct (match lstrip text with
            | x2b :: s' => (false, s')
            | x2d :: s' => (true, s')
            | _ => (false, lstrip text)
            end) as [neg s0].
  set (s1 := match s0 with
             | x30 :: (x78 | x58) :: x5f :: s' => s'
             | x30 :: (x78 | x58) :: s' => s'
             | _ => s0
             end).
  clearbody s1.
  assert (forall r : result Z,
            (r = match hex_scan s1 0 false false with
                 | Some (v, true, rest) =>
                     match lstrip rest with
                     | [] => Ok (if neg then - v else v)
                     | _ => Raise ValueError
                     end
                 | _ => Raise ValueError
                 end) -> r = Raise e -> e = ValueError) as Hbody.
  { intros r -> H. destruct (hex_scan s1 0 false false) as [[[v []] rest]|];
      [destruct (lstrip rest)|..]; inv H; reflexivity. }
  destruct s1 as [|c s1]; [apply (Hbody _ eq_refl)|].
  destruct c; first [apply (Hbody _ eq_refl) | intros H; inv H; reflexivity].
Qed.

Lemma given_checksum_raises checksum e :
  given_checksum checksum = Raise e -> e = UnicodeDecodeError \/ e = ValueError.
Proof.
  unfold given_checksum, decode_ascii.
  destruct (forallb _ checksum); [rewrite bind_Ok | rewrite bind_Raise].
  - intros H. right. exact (int16_raises _ _ H).
  - intros H. inv H. left. reflexivity.
Qed.

Lemma boundary_ends_nil s : forall n,
  boundary_ends n s = [] -> has_boundary s = false.
Proof.
  induction s as [|a s IH]; intros n H; [reflexivity|].
  cbn [boundary_ends] in H. apply app_eq_nil in H as [H1 H2].
  cbn [has_boundary]. rewrite (IH _ H2), orb_false_r.
  destruct (starts_boundary (a :: s)); [discriminate H1 | reflexivity].
Qed.

(** [validate] finds no place to cut exactly when the datagram has no
    trailer boundary. *)
Lemma trailer_split_None_iff d :
  trailer_split d = None <-> has_boundary d = false.
Proof.
  split; [|apply trailer_split_none].
  unfold trailer_split, finditer.
  rewrite (finditer_boundary _ _ _ (Nat.le_refl _)), fold_left_last, last_map.
  cbn [length]. destruct (last (boundary_ends 0 d)) eqn:E; [discriminate|].
  intros _. apply last_None in E. exact (boundary_ends_nil _ _ E).
Qed.

(** The error for the missing boundary is raised in no other case. *)
Lemma validate_unbound_iff d :
  validate d = Raise UnboundLocalError <-> has_boundary d = false.
Proof.
  rewrite <- trailer_split_None_iff. unfold validate.
  destruct (trailer_split d) as [[packet checksum]|]; [|tauto].
  split; [|discriminate]. intros H. exfalso.
  destruct (strip checksum); [discriminate H|].
  destruct (given_checksum checksum) as [g|e] eqn:Hg.
  - rewrite bind_Ok in H. destruct (g =? crc16 packet); discriminate H.
  - rewrite bind_Raise in H. inv H.
    destruct (given_checksum_raises _ _ Hg); discriminate.
Qed.

(** ** Checksum validation *)

(** C6. A frame in which no line boundary immediately before the trailer
    marker can be located: [validate] raises no error of its own for it.
    The loop over the boundaries binds nothing, and [validate] fails where
    it reads the never-assigned [checksum], with the interpreter's
    [UnboundLocalError]; [__init__] stops there and builds no record. *)
Theorem validate_no_trailer_boundary (d : bytes) :
  has_boundary d = false ->
  validate d = Raise UnboundLocalError /\ P1Packet d = Raise UnboundLocalError.
Proof.
  intros H. assert (validate d = Raise UnboundLocalError) as Hv.
  { unfold validate. rewrite (trailer_split_none _ H). reflexivity. }
  split; [exact Hv|]. unfold P1Packet. rewrite Hv. reflexivity.
Qed.

Lemma validate_no_trailer_boundary_witness :
  has_boundary (B "/ISK5" ++ [LF; x21; LF]) = false /\
  validate (B "/ISK5" ++ [LF; x21; LF]) = Raise UnboundLocalError /\
  P1Packet (B "/ISK5" ++ [LF; x21; LF]) = Raise UnboundLocalError.
Proof.
  split; [vm_compute; reflexivity|].
  apply (validate_no_trailer_boundary (B "/ISK5" ++ [LF; x21; LF])).
  vm_compute. reflexivity.
Defined.

(** Such a frame is one the reader delivers: a meter that ends its lines
    with LF alone gives a header line and a trailer line, the reader
    assembles them, and the packet fails in this way. *)
Lemma no_boundary_frame_is_received :
  read_one_frame 2 (lines_then_silence [B "/ISK5" ++ [LF]; [x21; LF]])
  = Some (Ok (B "/ISK5" ++ [LF; x21; LF])) /\
  read_one_packet 2 (lines_then_silence [B "/ISK5" ++ [LF]; [x21; LF]])
  = Some (Raise UnboundLocalError).
Proof. split; vm_compute; reflexivity. Qed.

(** C8. When what follows the trailer marker is empty once whitespace is
    stripped (a bare [!] trailer), [validate] computes and compares no
    checksum and raises nothing, and [__init__] goes on to read the fields
    exactly as it does for a frame whose checksum was verified. *)
Theorem validate_bare_trailer (pre rem : bytes) :
  strip rem = [] ->
  validate (pre ++ CRLF ++ x21 :: rem) = Ok tt /\
  P1Packet (pre ++ CRLF ++ x21 :: rem) = extract (pre ++ CRLF ++ x21 :: rem).
Proof.
  intros H.
  assert (validate (pre ++ CRLF ++ x21 :: rem) = Ok tt) as Hv.
  { unfold validate. rewrite trailer_split_last.
    - rewrite H. reflexivity.
    - apply spaces_no_boundary, strip_with_nil, H. }
  split; [exact Hv|]. unfold P1Packet. rewrite Hv. reflexivity.
Qed.

Lemma validate_bare_trailer_witness :
  strip CRLF = [] /\
  validate (example_lines ++ CRLF ++ x21 :: CRLF) = Ok tt /\
  P1Packet (example_lines ++ CRLF ++ x21 :: CRLF)
  = extract (example_lines ++ CRLF ++ x21 :: CRLF).
Proof.
  split; [vm_compute; reflexivity|].
  apply (validate_bare_trailer example_lines CRLF). vm_compute. reflexivity.
Defined.

(** C3. When what follows the trailer marker is not empty and the number it
    spells differs from the CRC-16 of the bytes up to and including the
    marker, [validate] raises [P1PacketError]; [__init__] stops there, so no
    field is read and no record is built. *)
Theorem checksum_mismatch_rejected (pre rem : bytes) (given : Z) :
  has_boundary rem = false ->
  strip rem <> [] ->
  given_checksum rem = Ok given ->
  given <> crc16 (pre ++ CRLF ++ [x21]) ->
  validate (pre ++ CRLF ++ x21 :: rem) = Raise P1PacketError /\
  P1Packet (pre ++ CRLF ++ x21 :: rem) = Raise P1PacketError.
Proof.
  intros Hb Hs Hg Hne.
  assert (validate (pre ++ CRLF ++ x21 :: rem) = Raise P1PacketError) as Hv.
  { unfold validate. rewrite (trailer_split_last _ _ Hb).
    destruct (strip rem); [contradiction|].
    rewrite Hg, bind_Ok. apply Z.eqb_neq in Hne. rewrite Hne. reflexivity. }
  split; [exact Hv|]. unfold P1Packet. rewrite Hv. reflexivity.
Qed.

Lemma checksum_mismatch_rejected_witness :
  validate (example_lines ++ CRLF ++ x21 :: B "518C" ++ CRLF) = Raise P1PacketError /\
  P1Packet (example_lines ++ CRLF ++ x21 :: B "518C" ++ CRLF) = Raise P1PacketError.
Proof.
  apply (checksum_mismatch_rejected example_lines (B "518C" ++ CRLF) 0x518C).
  - vm_compute. reflexivity.
  - vm_compute. discriminate.
  - vm_compute. reflexivity.
  - vm_compute. discriminate.
Defined.




(** ** The frame reader *)

(** Greedy repetition backtracks to any shorter run the rest accepts. *)
Lemma star_backtracks {A : Type} cs w : forall sn rest g (k : cursor -> option A),
  forallb (cset_mem cs) w = true ->
  star cs sn (w ++ rest) g k = None ->
  k (Cursor (rev w ++ sn) rest g) = None.
Proof.
  induction w as [|x w IH]; intros sn rest g k Hw H.
  - apply star_pass in H. exact H.
  - simpl in Hw. apply andb_prop in Hw as [Hx Hw].
    cbn [app star] in H. rewrite Hx in H.
    destruct (star cs (x :: sn) (w ++ rest) g k) eqn:E; [discriminate H|].
    apply (IH _ _ _ _ Hw) in E. cbn [rev]. rewrite <- app_assoc. exact E.
Qed.

(** The lines [read_one_packet] takes for header lines: those with a [/]
    that no LF precedes. *)
Lemma header_line_iff line :
  is_Some_b (re_match header_line line) = true
  <-> exists p q, line = p ++ x2f :: q /\ forallb not_LF p = true.
Proof.
  unfold re_match, match_at. split.
  - destruct (exec header_line _ Some) as [c'|] eqn:He; [|discriminate].
    intros _. apply exec_sound in He as (c1 & Hm & _).
    unfold header_line in Hm. inv Hm.
    match goal with H : matches (Star _) _ _ |- _ =>
      apply matches_Star in H as (w & Hw & [Ha _] & _) end.
    match goal with H : matches (Ahead _) _ _ |- _ => inv H end.
    match goal with H : exec (Chr _) _ Some = Some _ |- _ =>
      apply exec_sound in H as (c2 & H & _);
      apply matches_Chr in H as (x & Hx & [Hax _] & _) end.
    simpl in Hx. apply Byte.byte_dec_bl in Hx. subst x.
    simpl in Ha. rewrite Hax in Ha. exists w. eexists. split; [exact Ha | exact Hw].
  - intros (p & q & -> & Hp).
    destruct (exec header_line _ Some) as [c'|] eqn:He; [reflexivity|].
    exfalso. unfold header_line in He. cbn [exec seen ahead group1] in He.
    apply (star_backtracks CDot p) in He; [|exact Hp].
    discriminate He.
Qed.

(** A line as [readline] returns it has no LF before its last byte; such a
    line is a header line exactly when it contains a [/]. *)
Lemma header_line_of_raw_line body term :
  forallb not_LF body = true ->
  term = [] \/ term = [LF] ->
  is_Some_b (re_match header_line (body ++ term)) = true <-> In x2f body.
Proof.
  intros Hbody Hterm. rewrite header_line_iff. split.
  - intros (p & q & Heq & _).
    assert (In x2f (body ++ term)) as Hin
      by (rewrite Heq; apply in_or_app; right; left; reflexivity).
    apply in_app_or in Hin as [Hin|Hin]; [exact Hin|].
    destruct Hterm as [-> | ->]; simpl in Hin; [contradiction|].
    destruct Hin as [Hin|[]]. discriminate Hin.
  - intros Hin. apply in_split in Hin as (p & q & ->).
    exists p, (q ++ term). split; [rewrite <- app_assoc; reflexivity|].
    rewrite forallb_app in Hbody. apply andb_prop in Hbody as [Hp _]. exact Hp.
Qed.

Lemma read_loop_error fuel src : forall i st e,
  read_loop fuel src i st = Some (Raise e) ->
  e = SmartMeterError /\ exists j, src j = Fails.
Proof.
  induction fuel as [|fuel IH]; intros i st e H; simpl in H;
    destruct (negb (startFound st) || negb (endFound st)); try discriminate H.
  destruct (src i) as [line|] eqn:Hi.
  - apply IH in H. exact H.
  - inv H. split; [reflexivity|]. exists i. exact Hi.
Qed.

(** With no trailer line in sight the loop neither returns nor raises. *)
Lemma read_loop_no_trailer fuel src : forall i st,
  (forall j, exists l, src j = Line l /\ re_match trailer_line l = None) ->
  endFound st = false ->
  read_loop fuel src i st = None.
Proof.
  induction fuel as [|fuel IH]; intros i st Hsrc Hend; simpl;
    rewrite Hend, orb_true_r; [reflexivity|].
  destruct (Hsrc i) as (l & -> & Hl). apply IH; [exact Hsrc|].
  unfold read_line. rewrite Hl.
  destruct (is_Some_b (re_match header_line l)); [reflexivity | exact Hend].
Qed.

(** C4, as the code has it. A line with a [/] that no LF precedes makes
    [read_one_packet] drop what it had accumulated, set [startFound], clear
    [endFound] and restart the datagram from that line with its leading
    whitespace removed; bytes before the [/] that are not whitespace stay.
    The lines [noise], [/HEADER], [!ABCD] give the frame [/HEADER\r\n!ABCD\r\n]. *)
Theorem header_line_restarts_frame (st : reader) (p q : bytes) :
  forallb not_LF p = true ->
  read_line st (p ++ x2f :: q)
  = Reader (lstrip (p ++ x2f :: q)) (S (lines_read st)) true false
  /\ (forallb is_space p = true -> lstrip (p ++ x2f :: q) = x2f :: q)
  /\ (forall c p', p = c :: p' -> is_space c = false ->
       lstrip (p ++ x2f :: q) = p ++ x2f :: q)
  /\ read_one_frame 3 (lines_then_silence
        [B "noise" ++ CRLF; B "/HEADER" ++ CRLF; B "!ABCD" ++ CRLF])
     = Some (Ok (B "/HEADER" ++ CRLF ++ B "!ABCD" ++ CRLF)).
Proof.
  intros Hp. split; [|split; [|split]].
  - unfold read_line.
    replace (is_Some_b (re_match header_line (p ++ x2f :: q))) with true;
      [reflexivity|].
    symmetry. apply header_line_iff. exists p, q. split; [reflexivity | exact Hp].
  - intros Hsp. apply lstrip_with_spaces; [exact Hsp | reflexivity].
  - intros c p' -> Hc. unfold lstrip. cbn [app lstrip_with]. rewrite Hc. reflexivity.
  - reflexivity.
Qed.

Lemma header_line_restarts_frame_witness :
  read_line (Reader (B "noise" ++ CRLF) 1 false false) (B " /HEADER" ++ CRLF)
  = Reader (B "/HEADER" ++ CRLF) 2 true false.
Proof.
  destruct (header_line_restarts_frame
              (Reader (B "noise" ++ CRLF) 1 false false) (B " ") (B "HEADER" ++ CRLF))
    as (Hstep & Hsp & _); [reflexivity|].
  change (B " /HEADER" ++ CRLF) with (B " " ++ x2f :: B "HEADER" ++ CRLF).
  rewrite Hstep, Hsp; reflexivity.
Defined.

(** C4, as stated, fails: of a header line with other bytes before the [/]
    the reader keeps those bytes, where the statement has the frame start at
    the marker. *)
Lemma header_line_keeps_leading_bytes :
  is_Some_b (re_match header_line (B "noise/HEADER" ++ CRLF)) = true /\
  r_datagram (read_line reader_init (B "noise/HEADER" ++ CRLF))
  = B "noise/HEADER" ++ CRLF /\
  r_datagram (read_line reader_init (B "noise/HEADER" ++ CRLF))
  <> from_marker (B "noise/HEADER" ++ CRLF) /\
  read_one_frame 2 (lines_then_silence [B "noise/HEADER" ++ CRLF; B "!ABCD" ++ CRLF])
  = Some (Ok (B "noise/HEADER" ++ CRLF ++ B "!ABCD" ++ CRLF)).
Proof.
  split; [vm_compute; reflexivity|]. split; [vm_compute; reflexivity|].
  split; [vm_compute; discriminate | vm_compute; reflexivity].
Qed.

(** C2, on the code. The telegram [long_telegram] has 40 consecutive lines
    that are not trailer lines, more than [max_lines]; the reader raises
    nothing, reads all 42 lines and returns the packet. *)
Theorem long_telegram_is_read :
  (max_lines < 40)%nat /\
  length (take 40 (drop 1 long_telegram)) = 40%nat /\
  forallb (fun l => negb (is_Some_b (re_match trailer_line l)))
          (take 40 (drop 1 long_telegram)) = true /\
  read_one_frame 42 (lines_then_silence long_telegram)
  = Some (Ok (concat long_telegram)) /\
  option_map lines_read
    (match read_loop 42 (lines_then_silence long_telegram) 0 reader_init with
     | Some (Ok st) => Some st
     | _ => None
     end) = Some 42%nat /\
  option_map (fun packet => P1Packet_getitem packet "+T")
             (read_one_packet 42 (lines_then_silence long_telegram))
  = Some (Ok (PFloat (float_add (float_of_ratio 123456 3) (float_of_ratio 234567 3)))).
Proof.
  split; [unfold max_lines; lia|]. split; [vm_compute; reflexivity|].
  split; [vm_compute; reflexivity|]. split; [vm_compute; reflexivity|].
  split; vm_compute; reflexivity.
Qed.

(** ** The telegram record *)

Lemma py_add_raises a b e : py_add a b = Raise e -> e = TypeError.
Proof. destruct a, b; simpl; intros H; inversion H; reflexivity. Qed.

Lemma py_sub_raises a b e : py_sub a b = Raise e -> e = TypeError.
Proof. destruct a, b; simpl; intros H; inversion H; reflexivity. Qed.

Lemma py_add_None_l b : py_add PNone b = Raise TypeError.
Proof. destruct b; reflexivity. Qed.

Lemma py_add_None_r a : py_add a PNone = Raise TypeError.
Proof. destruct a; reflexivity. Qed.

Lemma py_sub_None_l b : py_sub PNone b = Raise TypeError.
Proof. destruct b; reflexivity. Qed.

Lemma py_sub_None_r a : py_sub a PNone = Raise TypeError.
Proof. destruct a; reflexivity. Qed.

(** Proves membership in a list written out in full. *)
Ltac in_list := simpl; repeat first [left; reflexivity | right].

(** A packet that is built holds the dict of its fields, the derived ones
    being the sums and the difference of the operands. *)
Lemma P1Packet_keys d keys :
  P1Packet d = Ok keys ->
  validate d = Ok tt /\
  exists pT mT P,
    keys = keys_of d pT mT P /\
    py_add (field d (obis_line "1-0:1.8.1" "kWh") PNone)
           (field d (obis_line "1-0:1.8.2" "kWh") PNone) = Ok pT /\
    py_add (field d (obis_line "1-0:2.8.1" "kWh") PNone)
           (field d (obis_line "1-0:2.8.2" "kWh") PNone) = Ok mT /\
    py_sub (field d (obis_line "1-0:1.7.0" "kW") PNone)
           (field d (obis_line "1-0:2.7.0" "kW") PNone) = Ok P.
Proof.
  unfold P1Packet. destruct (validate d) as [[]|e]; [|discriminate].
  rewrite bind_Ok, extract_keys. cbv zeta. intros H. split; [reflexivity|].
  destruct (py_add _ _) as [pT|]; [|discriminate H]. rewrite bind_Ok in H.
  destruct (py_add _ _) as [mT|]; [|discriminate H]. rewrite bind_Ok in H.
  destruct (py_sub _ _) as [P|]; [|discriminate H]. rewrite bind_Ok in H.
  inv H. eexists _, _, _. repeat split; reflexivity.
Qed.

(** The keys of the dict: the declared fields and the three derived ones. *)
Lemma keys_of_lookup d pT mT P k v :
  keys_of d pT mT P !! k = Some v ->
  (exists r dflt, In (k, r, dflt) declared_fields /\ v = field d r dflt)
  \/ (k = "+T" /\ v = pT) \/ (k = "-T" /\ v = mT) \/ (k = "P" /\ v = P).
Proof.
  unfold keys_of. intros H.
  repeat (apply lookup_insert_Some in H as [[<- <-]|[_ H]];
          [first [ left; eexists _, _; split; [in_list | reflexivity]
                 | right; left; split; reflexivity
                 | right; right; left; split; reflexivity
                 | right; right; right; split; reflexivity ]|]).
  rewrite lookup_empty in H. discriminate H.
Qed.

(** A sum of two fields, when it can be computed, is not negative. *)
Lemma field_sum_nonneg d r1 r2 v :
  captures_decimal r1 -> captures_decimal r2 ->
  py_add (field d r1 PNone) (field d r2 PNone) = Ok v -> nonneg v.
Proof.
  intros H1 H2.
  destruct (field_cases d r1 PNone H1) as [[_ ->]|[x [-> Hx]]];
    [rewrite py_add_None_l; discriminate|].
  destruct (field_cases d r2 PNone H2) as [[_ ->]|[y [-> Hy]]];
    [rewrite py_add_None_r; discriminate|].
  intros H. inv H. apply float_add_nonneg; assumption.
Qed.

(** Without one of the six operand fields [__init__] fails on the
    arithmetic of the derived fields. *)
Lemma extract_absent_operand d k r dflt :
  In (k, r, dflt) operand_fields ->
  re_search r d = None ->
  extract d = Raise TypeError.
Proof.
  intros Hin Hs. rewrite extract_keys. cbv zeta.
  assert (forall m f, (forall x e, f x = Raise e -> e = TypeError) ->
            (m = Raise TypeError \/ exists x : pyval, m = Ok x) ->
            forall e, @bind pyval (gmap string pyval) m f = Raise e -> e = TypeError)
    as Hb.
  { intros m f Hf [->|[x ->]] e He; [inv He; reflexivity | exact (Hf _ _ He)]. }
  assert (forall a b, py_add a b = Raise TypeError \/ exists x, py_add a b = Ok x) as Ha.
  { intros a b. destruct (py_add a b) as [x|e] eqn:E; [right; eexists; reflexivity|].
    left. rewrite (py_add_raises _ _ _ E). reflexivity. }
  unfold operand_fields, declared_fields in Hin. simpl in Hin.
  destruct Hin as [H|[H|[H|[H|[H|[H|[]]]]]]]; inv H;
    rewrite (field_absent _ _ _ Hs);
    rewrite ?py_add_None_l, ?py_add_None_r, ?py_sub_None_l, ?py_sub_None_r;
    try reflexivity;
    repeat match goal with
    | |- bind (py_add ?a ?b) _ = _ =>
        destruct (Ha a b) as [->|[? ->]]; [reflexivity | rewrite bind_Ok]
    | |- bind (Raise _) _ = _ => reflexivity
    end.
Qed.

(** C1, on the code. The specification's example telegram carries [+T1]
    and [-T1] but neither [+T2] nor [-T2]; its checksum is right, and
    [__init__] raises [TypeError] at [keys['+T1'] + keys['+T2']] instead of
    building a record with [+T = +T1 + 0]. The same happens when the
    telegram comes with a bare trailer. *)
Theorem example_frame_raises :
  validate example_frame = Ok tt /\
  re_search (obis_line "1-0:1.8.1" "kWh") example_frame <> None /\
  re_search (obis_line "1-0:1.8.2" "kWh") example_frame = None /\
  P1Packet example_frame = Raise TypeError /\
  P1Packet (example_lines ++ CRLF ++ x21 :: CRLF) = Raise TypeError.
Proof.
  split; [vm_compute; reflexivity|]. split; [vm_compute; discriminate|].
  split; [vm_compute; reflexivity|]. split; vm_compute; reflexivity.
Qed.

(** C5, as stated, fails: in a frame with a verified checksum and no gas
    line the record reports [G] as 0, not as absent. *)
Lemma absent_gas_is_zero :
  validate six_frame = Ok tt /\
  re_search gas_line six_frame = None /\
  P1Packet_getitem (P1Packet six_frame) "G" = Ok (PInt 0) /\
  P1Packet_getitem (P1Packet six_frame) "G" <> Ok PNone.
Proof.
  split; [vm_compute; reflexivity|]. split; [vm_compute; reflexivity|].
  split; [vm_compute; reflexivity | vm_compute; discriminate].
Qed.

(** C5, as the code has it. When the checksum passes and the six operand
    fields are there, the record is built; and in every record that is
    built, a declared field with no matching line is reported as [None],
    except for [G], which is reported as 0. *)
Theorem absent_fields_reported (d : bytes) :
  (validate d = Ok tt ->
   (forall k r dflt, In (k, r, dflt) operand_fields -> re_search r d <> None) ->
   exists keys, P1Packet d = Ok keys) /\
  (forall keys k r dflt,
     P1Packet d = Ok keys ->
     In (k, r, dflt) declared_fields ->
     re_search r d = None ->
     keys !! k = Some (if String.eqb k "G" then PInt 0 else PNone)).
Proof.
  split.
  - intros Hv Hop. unfold P1Packet. rewrite Hv, bind_Ok, extract_keys. cbv zeta.
    assert (forall k r dflt, In (k, r, dflt) operand_fields ->
              exists x, field d r dflt = PFloat x) as Hf.
    { intros k r dflt Hin. specialize (Hop k r dflt Hin).
      assert (In (k, r, dflt) declared_fields) as Hin'
        by (unfold operand_fields, declared_fields in *; simpl in *; tauto).
      destruct (field_cases d r dflt (declared_fields_decimal _ _ _ Hin'))
        as [[Hs _]|[x [Hx _]]]; [contradiction | exists x; exact Hx]. }
    destruct (Hf "+T1" (obis_line "1-0:1.8.1" "kWh") PNone) as [x1 ->]; [in_list|].
    destruct (Hf "-T1" (obis_line "1-0:2.8.1" "kWh") PNone) as [x2 ->]; [in_list|].
    destruct (Hf "+T2" (obis_line "1-0:1.8.2" "kWh") PNone) as [x3 ->]; [in_list|].
    destruct (Hf "-T2" (obis_line "1-0:2.8.2" "kWh") PNone) as [x4 ->]; [in_list|].
    destruct (Hf "+P" (obis_line "1-0:1.7.0" "kW") PNone) as [x5 ->]; [in_list|].
    destruct (Hf "-P" (obis_line "1-0:2.7.0" "kW") PNone) as [x6 ->]; [in_list|].
    eexists. reflexivity.
  - intros keys k r dflt Hp Hin Hs.
    apply P1Packet_keys in Hp as (_ & pT & mT & P & -> & _).
    rewrite (keys_of_declared _ _ _ _ _ _ _ Hin), (field_absent _ _ _ Hs).
    unfold declared_fields in Hin. simpl in Hin.
    repeat (destruct Hin as [Hin|Hin]; [inv Hin; reflexivity|]). contradiction.
Qed.

Lemma absent_fields_reported_witness :
  P1Packet_getitem (P1Packet six_frame) "V_1" = Ok PNone /\
  P1Packet_getitem (P1Packet six_frame) "G" = Ok (PInt 0).
Proof.
  destruct (absent_fields_reported six_frame) as [Hbuilt Habsent].
  destruct Hbuilt as [keys Hk].
  - vm_compute. reflexivity.
  - intros k r dflt Hin. unfold operand_fields, declared_fields in Hin. simpl in Hin.
    repeat (destruct Hin as [Hin|Hin]; [inv Hin; vm_compute; discriminate|]).
    contradiction.
  - unfold P1Packet_getitem, getitem. rewrite Hk, !bind_Ok.
    rewrite (Habsent keys "V_1" (obis_line "1-0:32.7.0" "V") PNone Hk);
      [|in_list|vm_compute; reflexivity].
    rewrite (Habsent keys "G" gas_line (PInt 0) Hk);
      [|in_list|vm_compute; reflexivity].
    split; reflexivity.
Defined.

Lemma declared_default k r dflt :
  In (k, r, dflt) declared_fields -> dflt = PNone \/ dflt = PInt 0.
Proof.
  unfold declared_fields. simpl. intros H.
  repeat (destruct H as [H|H]; [inv H; first [left; reflexivity | right; reflexivity]|]).
  contradiction.
Qed.

(** C9. In every record that is built, every value other than the net
    power [P] is not negative; and the value of a declared (not derived)
    field is the float of a captured text made of digits, a dot and digits,
    with no sign, or the default 0 of [G]. *)
Theorem record_values_nonnegative (d : bytes) (keys : gmap string pyval)
    (k : string) (v : pyval) :
  P1Packet d = Ok keys ->
  keys !! k = Some v ->
  v <> PNone ->
  (k <> "P" -> nonneg v) /\
  (forall r dflt, In (k, r, dflt) declared_fields ->
     v = PInt 0 \/
     exists m ip fp,
       re_search r d = Some m /\ m_group1 m = Some (ip ++ x2e :: fp) /\
       ip <> [] /\ fp <> [] /\
       forallb is_digit ip = true /\ forallb is_digit fp = true /\
       v = PFloat (float_of_ratio (decimal_value (ip ++ fp)) (length fp))).
Proof.
  intros Hp Hk Hv.
  apply P1Packet_keys in Hp as (_ & pT & mT & P & -> & HpT & HmT & _).
  split.
  - intros HP. apply keys_of_lookup in Hk
      as [(r & dflt & Hin & ->)|[[-> ->]|[[-> ->]|[-> _]]]].
    + destruct (field_cases d r dflt (declared_fields_decimal _ _ _ Hin))
        as [[_ Hf]|[x [Hf Hx]]]; rewrite Hf in *; [|exact Hx].
      destruct (declared_default _ _ _ Hin) as [->| ->];
        [contradiction | simpl; lia].
    + exact (field_sum_nonneg _ _ _ _ (obis_line_decimal _ _)
               (obis_line_decimal _ _) HpT).
    + exact (field_sum_nonneg _ _ _ _ (obis_line_decimal _ _)
               (obis_line_decimal _ _) HmT).
    + contradiction.
  - intros r dflt Hin.
    rewrite (keys_of_declared _ _ _ _ _ _ _ Hin) in Hk. inv Hk.
    pose proof (declared_fields_decimal _ _ _ Hin) as Hdec.
    destruct (re_search r d) as [m|] eqn:Hs.
    + destruct (field_found d r dflt Hdec m Hs)
        as (ip & fp & Hi & Hf & Hdi & Hdf & Hg & Hfield).
      right. exists m, ip, fp. repeat split; assumption.
    + rewrite (field_absent d r dflt Hs) in *.
      destruct (declared_default _ _ _ Hin) as [->| ->];
        [contradiction | left; reflexivity].
Qed.

Lemma P1Packet_getitem_Ok packet key v :
  P1Packet_getitem packet key = Ok v ->
  exists keys, packet = Ok keys /\ keys !! key = Some v.
Proof.
  unfold P1Packet_getitem, getitem. destruct packet as [keys|e]; [|discriminate].
  rewrite bind_Ok. destruct (keys !! key) as [x|] eqn:E; [|discriminate].
  intros H; inv H. exists keys. split; [reflexivity | exact E].
Qed.

Lemma record_values_nonnegative_witness :
  nonneg (PFloat (float_of_ratio 123456 3)).
Proof.
  assert (P1Packet_getitem (P1Packet six_frame) "+T1"
          = Ok (PFloat (float_of_ratio 123456 3))) as H
    by (vm_compute; reflexivity).
  apply P1Packet_getitem_Ok in H as (keys & Hp & Hl).
  apply (record_values_nonnegative six_frame keys "+T1"
           (PFloat (float_of_ratio 123456 3)) Hp Hl); discriminate.
Defined.

(** The net power is negative when more is exported than imported. *)
Lemma net_power_negative :
  P1Packet_getitem (P1Packet six_frame) "P"
  = Ok (PFloat (float_sub (float_of_ratio 250 3) (float_of_ratio 1500 3))) /\
  float_nonneg (float_sub (float_of_ratio 250 3) (float_of_ratio 1500 3)) = false.
Proof. split; vm_compute; reflexivity. Qed.

(** C10. The OBIS code of the gas pattern is optional as a whole: the frame
    [gas_frame], whose checksum is right, has the line [(123456.78)] with
    no code and no unit and no [0-1:24.2.1] anywhere, and its record has
    that number as [G]: the binary64 value 8483885321111470 * 2^-36, which
    lies within half a unit in the last place of 123456.78. *)
Theorem bare_gas_line_is_read :
  (exists pre post, gas_frame = pre ++ LF :: B "(123456.78)" ++ CRLF ++ post) /\
  re_search (Lit (B "0-1:24.2.1")) gas_frame = None /\
  validate gas_frame = Ok tt /\
  P1Packet_getitem (P1Packet gas_frame) "G"
  = Ok (PFloat (S754_finite false 8483885321111470 (-36))) /\
  2 ^ 52 <= 8483885321111470 < 2 ^ 53 /\
  (2 * 8483885321111470 - 1) * 100 < 2 * 12345678 * 2 ^ 36
  < (2 * 8483885321111470 + 1) * 100.
Proof.
  split.
  - exists (six_lines ++ [CR]), (x21 :: B "A779" ++ CRLF). vm_compute. reflexivity.
  - do 3 (split; [vm_compute; reflexivity|]). split; lia.
Qed.

(** ** More on the frame reader *)

Lemma classify_header line :
  classify line = HeaderLine <-> is_Some_b (re_match header_line line) = true.
Proof.
  unfold classify. destruct (is_Some_b (re_match header_line line));
    [tauto|]. destruct (is_Some_b (re_match trailer_line line));
    split; discriminate.
Qed.

(** What the loop body does with a line of each kind. *)
Lemma read_line_header st l :
  classify l = HeaderLine ->
  read_line st l = Reader (lstrip l) (S (lines_read st)) true false.
Proof. intros H. apply classify_header in H. unfold read_line. rewrite H. reflexivity. Qed.

Lemma read_line_trailer st l :
  classify l = TrailerLine ->
  read_line st l = Reader (r_datagram st ++ l) (S (lines_read st)) (startFound st) true.
Proof.
  unfold classify, read_line.
  destruct (is_Some_b (re_match header_line l)); [discriminate|].
  destruct (is_Some_b (re_match trailer_line l)); [reflexivity | discriminate].
Qed.

Lemma read_line_body st l :
  classify l = BodyLine ->
  read_line st l
  = Reader (r_datagram st ++ l) (S (lines_read st)) (startFound st) (endFound st).
Proof.
  unfold classify, read_line.
  destruct (is_Some_b (re_match header_line l)); [discriminate|].
  destruct (is_Some_b (re_match trailer_line l)); [discriminate | reflexivity].
Qed.

Lemma read_loop_done fuel src i st :
  startFound st = true -> endFound st = true ->
  read_loop fuel src i st = Some (Ok st).
Proof. intros Hs He. destruct fuel; simpl; rewrite Hs, He; reflexivity. Qed.

Lemma read_loop_step fuel src i st l :
  pending st -> src i = Line l ->
  read_loop (S fuel) src i st = read_loop fuel src (S i) (read_line st l).
Proof.
  intros Hp Hl. simpl. rewrite Hl. unfold pending in Hp.
  destruct (startFound st); [rewrite Hp by reflexivity|]; reflexivity.
Qed.

Lemma delivers_cons src i l ls :
  delivers src i (l :: ls) -> src i = Line l /\ delivers src (S i) ls.
Proof.
  intros H. split.
  - specialize (H 0%nat). rewrite Nat.add_0_r in H. apply H. simpl. lia.
  - intros m Hm. specialize (H (S m)). rewrite Nat.add_succ_r in H.
    apply H. simpl. lia.
Qed.

(** Lines that complete no frame are all consumed, one pass of the loop
    body each. *)
Lemma read_loop_lines ls : forall fuel src i st,
  pending st ->
  completes (startFound st) ls = false ->
  delivers src i ls ->
  read_loop (length ls + fuel) src i st
  = read_loop fuel src (i + length ls) (run_lines st ls)
  /\ pending (run_lines st ls)
  /\ lines_read (run_lines st ls) = (lines_read st + length ls)%nat.
Proof.
  induction ls as [|l ls IH]; intros fuel src i st Hp Hc Hd.
  - simpl. rewrite !Nat.add_0_r. split; [reflexivity|]. split; [exact Hp | reflexivity].
  - apply delivers_cons in Hd as [Hl Hd].
    cbn [length Nat.add]. rewrite (read_loop_step _ _ _ _ _ Hp Hl).
    change (run_lines st (l :: ls)) with (run_lines (read_line st l) ls).
    cbn [completes] in Hc.
    assert (pending (read_line st l)
            /\ completes (startFound (read_line st l)) ls = false
            /\ lines_read (read_line st l) = S (lines_read st)) as (Hp' & Hc' & Hn).
    { destruct (classify l) eqn:Hk.
      - rewrite (read_line_header _ _ Hk).
        split; [intros _; reflexivity|]. split; [exact Hc | reflexivity].
      - rewrite (read_line_trailer _ _ Hk). apply orb_false_elim in Hc as [Hs Hc].
        split; [intros Hs'; simpl in Hs'; congruence|].
        split; [exact Hc | reflexivity].
      - rewrite (read_line_body _ _ Hk).
        split; [exact Hp|]. split; [exact Hc | reflexivity]. }
    destruct (IH fuel src (S i) (read_line st l) Hp' Hc' Hd) as (Heq & Hp2 & Hn2).
    rewrite Heq, Hn2, Hn. replace (i + S (length ls))%nat with (S i + length ls)%nat by lia.
    split; [reflexivity|]. split; [exact Hp2 | lia].
Qed.

Lemma run_lines_body ls : forall st,
  forallb is_body ls = true ->
  run_lines st ls
  = Reader (r_datagram st ++ concat ls) (lines_read st + length ls)
           (startFound st) (endFound st).
Proof.
  induction ls as [|l ls IH]; intros st H.
  - simpl. rewrite app_nil_r, Nat.add_0_r. destruct st; reflexivity.
  - simpl in H. apply andb_prop in H as [Hl Hls].
    unfold is_body in Hl. destruct (classify l) eqn:Hk; try discriminate Hl.
    change (run_lines st (l :: ls)) with (run_lines (read_line st l) ls).
    rewrite (IH _ Hls), (read_line_body _ _ Hk). cbn [r_datagram lines_read startFound endFound concat length].
    rewrite <- app_assoc. f_equal. lia.
Qed.

Lemma completes_body started ls :
  forallb is_body ls = true -> completes started ls = false.
Proof.
  induction ls as [|l ls IH]; [reflexivity|]. simpl. intros H.
  apply andb_prop in H as [Hl Hls]. unfold is_body in Hl.
  destruct (classify l); try discriminate Hl. exact (IH Hls).
Qed.

Lemma delivers_app src i ls1 ls2 :
  delivers src i (ls1 ++ ls2) ->
  delivers src i ls1 /\ delivers src (i + length ls1) ls2.
Proof.
  intros H. split; intros m Hm.
  - rewrite (H m) by (rewrite length_app; lia).
    rewrite app_nth1 by exact Hm. reflexivity.
  - rewrite <- Nat.add_assoc, (H (length ls1 + m)%nat) by (rewrite length_app; lia).
    rewrite app_nth2_plus. reflexivity.
Qed.

Lemma lines_then_silence_delivers ls rest :
  delivers (lines_then_silence (ls ++ rest)) 0 ls.
Proof.
  intros m Hm. unfold lines_then_silence. simpl.
  rewrite app_nth1 by exact Hm. reflexivity.
Qed.

Section Assembly.
Variable src : transport.
Variables pre body : list bytes.
Variables h t : bytes.
Hypothesis Hsrc : delivers src 0 (pre ++ h :: body ++ [t]).
Hypothesis Hpre : completes false pre = false.
Hypothesis Hh : classify h = HeaderLine.
Hypothesis Hbody : forallb is_body body = true.
Hypothesis Ht : classify t = TrailerLine.

(** Lines that complete no frame, then a header line, body lines and a
    trailer line: the loop stops right after the trailer line, and the
    datagram is the header line without its leading whitespace, the body
    lines and the trailer line; what came before the header line is gone. *)
Lemma read_loop_assembles fuel :
  read_loop (length (pre ++ h :: body ++ [t]) + fuel) src 0 reader_init
  = Some (Ok (Reader (lstrip h ++ concat body ++ t)
                     (length (pre ++ h :: body ++ [t])) true true)).
Proof.
  apply delivers_app in Hsrc as [Hd1 Hd2]. simpl in Hd2.
  apply delivers_cons in Hd2 as [Hdh Hd2].
  apply delivers_app in Hd2 as [Hd3 Hd4].
  apply delivers_cons in Hd4 as [Hdt _].
  rewrite !length_app. cbn [length]. rewrite length_app. cbn [length].
  replace (length pre + S (length body + 1) + fuel)%nat
    with (length pre + S (length body + S fuel))%nat by lia.
  destruct (read_loop_lines pre (S (length body + S fuel)) src 0 reader_init)
    as (Heq & Hp & Hn); [intros Hs; discriminate Hs | exact Hpre | exact Hd1|].
  rewrite Heq. simpl Nat.add at 1.
  rewrite (read_loop_step _ _ _ _ _ Hp Hdh), (read_line_header _ _ Hh).
  set (st1 := Reader (lstrip h) (S (lines_read (run_lines reader_init pre))) true false).
  destruct (read_loop_lines body (S fuel) src (S (length pre)) st1)
    as (Heq2 & Hp2 & Hn2);
    [intros _; reflexivity | apply completes_body, Hbody | exact Hd3|].
  rewrite Heq2.
  rewrite (read_loop_step _ _ _ _ _ Hp2 Hdt), (read_line_trailer _ _ Ht).
  rewrite (run_lines_body _ _ Hbody). subst st1.
  cbn [r_datagram lines_read startFound endFound].
  rewrite read_loop_done by reflexivity.
  rewrite Hn. cbn [lines_read reader_init]. rewrite <- app_assoc.
  do 3 f_equal. lia.
Qed.
End Assembly.

(** X1. Frame assembly. When the transport delivers lines that complete
    no frame, then a header line, body lines and a trailer line,
    [read_one_packet] stops after that trailer line and parses the header
    line without its leading whitespace followed by the body lines and the
    trailer line: noise, stray trailer lines and a frame cut short by a new
    header line are all dropped. *)
Theorem frame_assembled (src : transport) (pre body : list bytes) (h t : bytes)
    (fuel : nat) :
  delivers src 0 (pre ++ h :: body ++ [t]) ->
  completes false pre = false ->
  classify h = HeaderLine ->
  forallb is_body body = true ->
  classify t = TrailerLine ->
  (length (pre ++ h :: body ++ [t]) <= fuel)%nat ->
  read_one_frame fuel src = Some (Ok (lstrip h ++ concat body ++ t)) /\
  read_one_packet fuel src = Some (P1Packet (lstrip h ++ concat body ++ t)).
Proof.
  intros Hsrc Hpre Hh Hbody Ht Hfuel.
  assert (read_one_frame fuel src = Some (Ok (lstrip h ++ concat body ++ t))) as Hf.
  { unfold read_one_frame.
    replace fuel with (length (pre ++ h :: body ++ [t])
                       + (fuel - length (pre ++ h :: body ++ [t])))%nat by lia.
    rewrite (read_loop_assembles src pre body h t Hsrc Hpre Hh Hbody Ht).
    reflexivity. }
  split; [exact Hf|]. unfold read_one_packet. rewrite Hf. reflexivity.
Qed.

Lemma frame_assembled_witness :
  read_one_frame 10
    (lines_then_silence
       [B "noise" ++ CRLF; B "!0000" ++ CRLF; B "/OLD" ++ CRLF; B "1-0:1.8.1(1.0*kWh)" ++ CRLF;
        B "  /ISK5" ++ CRLF; CRLF; B "1-0:1.8.1(2.0*kWh)" ++ CRLF; B "!" ++ CRLF])
  = Some (Ok (B "/ISK5" ++ CRLF ++ CRLF ++ B "1-0:1.8.1(2.0*kWh)" ++ CRLF ++ B "!" ++ CRLF)).
Proof.
  apply (frame_assembled
           (lines_then_silence
              [B "noise" ++ CRLF; B "!0000" ++ CRLF; B "/OLD" ++ CRLF;
               B "1-0:1.8.1(1.0*kWh)" ++ CRLF;
               B "  /ISK5" ++ CRLF; CRLF; B "1-0:1.8.1(2.0*kWh)" ++ CRLF; B "!" ++ CRLF])
           [B "noise" ++ CRLF; B "!0000" ++ CRLF; B "/OLD" ++ CRLF;
            B "1-0:1.8.1(1.0*kWh)" ++ CRLF]
           [CRLF; B "1-0:1.8.1(2.0*kWh)" ++ CRLF]
           (B "  /ISK5" ++ CRLF) (B "!" ++ CRLF) 10).
  - intros m Hm. reflexivity.
  - vm_compute. reflexivity.
  - vm_compute. reflexivity.
  - vm_compute. reflexivity.
  - vm_compute. reflexivity.
  - simpl. lia.
Defined.

Lemma completes_no_header ls :
  has_header ls = false -> completes true ls = false -> forallb is_body ls = true.
Proof.
  induction ls as [|l ls IH]; [reflexivity|].
  unfold has_header, is_body in *. simpl.
  destruct (classify l); simpl; try discriminate.
  intros Hh Hc. exact (IH Hh Hc).
Qed.

(** The lines after the last header line, when no frame is complete, are
    body lines. *)
Lemma last_header ls : forall started,
  completes started ls = false ->
  has_header ls = true ->
  exists pre h body,
    ls = pre ++ h :: body /\ classify h = HeaderLine /\
    forallb is_body body = true /\ completes started pre = false.
Proof.
  induction ls as [|l ls IH]; intros started Hc Hh; [discriminate Hh|].
  cbn [completes] in Hc. unfold has_header in Hh. cbn [existsb] in Hh.
  fold (has_header ls) in Hh.
  destruct (classify l) eqn:Hk.
  - destruct (has_header ls) eqn:Hh'.
    + destruct (IH true Hc eq_refl) as (pre & h & body & -> & Hkh & Hb & Hp).
      exists (l :: pre), h, body. repeat split; try assumption.
      cbn [completes]. rewrite Hk. exact Hp.
    + exists [], l, ls. repeat split; try assumption.
      apply completes_no_header; assumption.
  - apply orb_false_elim in Hc as [-> Hc]. simpl in Hh.
    destruct (IH false Hc Hh) as (pre & h & body & -> & Hkh & Hb & Hp).
    exists (l :: pre), h, body. repeat split; try assumption.
    cbn [completes]. rewrite Hk, Hp. reflexivity.
  - simpl in Hh.
    destruct (IH started Hc Hh) as (pre & h & body & -> & Hkh & Hb & Hp).
    exists (l :: pre), h, body. repeat split; try assumption.
    cbn [completes]. rewrite Hk. exact Hp.
Qed.

Lemma completes_snoc ls l : forall started,
  completes started ls = false ->
  completes started (ls ++ [l]) = true ->
  classify l = TrailerLine /\ (started = true \/ has_header ls = true).
Proof.
  induction ls as [|x ls IH]; intros started Hc Hc'.
  - cbn [app completes] in Hc'. destruct (classify l); try discriminate Hc'.
    rewrite orb_false_r in Hc'. split; [reflexivity | left; exact Hc'].
  - cbn [app completes] in Hc, Hc'. unfold has_header. cbn [existsb].
    fold (has_header ls). destruct (classify x).
    + destruct (IH true Hc Hc') as [Hl _]. split; [exact Hl | right; reflexivity].
    + apply orb_false_elim in Hc as [-> Hc]. simpl in Hc'.
      destruct (IH false Hc Hc') as [Hl [H|H]]; [discriminate H|].
      split; [exact Hl | right; exact H].
    + destruct (IH started Hc Hc') as [Hl H]. split; [exact Hl|].
      destruct H as [H|H]; [left | right]; exact H.
Qed.

Lemma delivers_snoc src ls l :
  delivers src 0 ls -> src (length ls) = Line l -> delivers src 0 (ls ++ [l]).
Proof.
  intros Hd Hl m Hm. rewrite length_app in Hm. simpl in Hm.
  destruct (Nat.eq_dec m (length ls)) as [->|Hne].
  - rewrite nth_middle. exact Hl.
  - rewrite app_nth1 by lia. apply Hd. lia.
Qed.

Lemma read_loop_returns fuel src : forall ls st,
  delivers src 0 ls ->
  completes false ls = false ->
  read_loop fuel src (length ls) (run_lines reader_init ls) = Some (Ok st) ->
  exists pre h body t,
    delivers src 0 (pre ++ h :: body ++ [t]) /\
    completes false pre = false /\
    classify h = HeaderLine /\
    forallb is_body body = true /\
    classify t = TrailerLine /\
    st = Reader (lstrip h ++ concat body ++ t)
                (length (pre ++ h :: body ++ [t])) true true.
Proof.
  induction fuel as [|fuel IH]; intros ls st Hd Hc H.
  - destruct (read_loop_lines ls 0 src 0 reader_init) as (_ & Hp & _);
      [intros Hs; discriminate Hs | exact Hc | exact Hd|].
    simpl in H. unfold pending in Hp.
    destruct (startFound (run_lines reader_init ls));
      [rewrite Hp in H by reflexivity|]; discriminate H.
  - destruct (read_loop_lines ls 0 src 0 reader_init) as (_ & Hp & _);
      [intros Hs; discriminate Hs | exact Hc | exact Hd|].
    destruct (src (length ls)) as [l|] eqn:Hl.
    + rewrite (read_loop_step _ _ _ _ _ Hp Hl) in H.
      pose proof (delivers_snoc _ _ _ Hd Hl) as Hd'.
      destruct (completes false (ls ++ [l])) eqn:Hc'.
      * destruct (completes_snoc _ _ _ Hc Hc') as [Hk [Hs|Hh]]; [discriminate Hs|].
        destruct (last_header _ _ Hc Hh) as (pre & h & body & -> & Hkh & Hb & Hpre).
        rewrite <- app_assoc in Hd'. cbn [app] in Hd'.
        pose proof (read_loop_assembles src pre body h l Hd' Hpre Hkh Hb Hk 0) as Ha.
        exists pre, h, body, l. repeat split; try assumption.
        assert (read_line (run_lines reader_init (pre ++ h :: body)) l
                = Reader (lstrip h ++ concat body ++ l)
                         (length (pre ++ h :: body ++ [l])) true true) as Hst.
        { destruct (read_loop_lines (pre ++ h :: body) 1 src 0 reader_init)
            as (Heq & _ & _);
            [intros Hs; discriminate Hs | exact Hc | exact Hd|].
          replace (length (pre ++ h :: body ++ [l]) + 0)%nat
            with (length (pre ++ h :: body) + 1)%nat in Ha
            by (rewrite !length_app; cbn [length]; rewrite length_app; simpl; lia).
          rewrite Heq in Ha. simpl Nat.add in Ha.
          rewrite (read_loop_step _ _ _ _ _ Hp Hl) in Ha. simpl in Ha.
          destruct (startFound (read_line _ l)), (endFound (read_line _ l));
            simpl in Ha; try discriminate Ha; inv Ha; reflexivity. }
        rewrite Hst in H. rewrite read_loop_done in H by reflexivity.
        inv H. reflexivity.
      * apply (IH (ls ++ [l]) st Hd' Hc').
        rewrite length_app. simpl. replace (length ls + 1)%nat with (S (length ls)) by lia.
        unfold run_lines. rewrite fold_left_app. exact H.
    + simpl in H. rewrite Hl in H. unfold pending in Hp.
      destruct (startFound (run_lines reader_init ls));
        [rewrite Hp in H by reflexivity|]; discriminate H.
Qed.

(** X2. The shape of every frame returned. Whenever [read_one_packet]
    gets as far as building a packet, the transport has delivered lines that
    complete no frame, then a header line, body lines and a trailer line,
    and the datagram is that header line without its leading whitespace,
    those body lines and that trailer line. *)
Theorem frame_returned_shape (fuel : nat) (src : transport) (d : bytes) :
  read_one_frame fuel src = Some (Ok d) ->
  exists pre h body t,
    delivers src 0 (pre ++ h :: body ++ [t]) /\
    completes false pre = false /\
    classify h = HeaderLine /\
    forallb is_body body = true /\
    classify t = TrailerLine /\
    d = lstrip h ++ concat body ++ t.
Proof.
  unfold read_one_frame.
  destruct (read_loop fuel src 0 reader_init) as [[st|e]|] eqn:H; try discriminate.
  intros Hd. inv Hd.
  destruct (read_loop_returns fuel src [] st) as (pre & h & body & t & H1 & H2 & H3 & H4 & H5 & ->);
    [intros m Hm; simpl in Hm; lia | reflexivity | exact H|].
  exists pre, h, body, t. repeat split; assumption.
Qed.

Lemma frame_returned_shape_witness :
  exists pre h body t,
    delivers (lines_then_silence [B "x" ++ CRLF; B "/A" ++ CRLF; B "!" ++ CRLF]) 0
             (pre ++ h :: body ++ [t]) /\
    completes false pre = false /\
    classify h = HeaderLine /\
    forallb is_body body = true /\
    classify t = TrailerLine /\
    B "/A" ++ CRLF ++ B "!" ++ CRLF = lstrip h ++ concat body ++ t.
Proof.
  apply (frame_returned_shape 5
           (lines_then_silence [B "x" ++ CRLF; B "/A" ++ CRLF; B "!" ++ CRLF])).
  vm_compute. reflexivity.
Defined.

(** X3. No way out without a trailer line. When every line the transport
    delivers is a header line or a body line (as with a meter that has gone
    silent, [readline] returning [b''] at each timeout), [read_one_packet]
    neither returns nor raises, however many lines it reads. *)
Theorem no_trailer_no_return (src : transport) :
  (forall j, exists l, src j = Line l /\ classify l <> TrailerLine) ->
  forall fuel, read_one_frame fuel src = None /\ read_one_packet fuel src = None.
Proof.
  intros Hsrc fuel.
  assert (forall fuel i st, endFound st = false -> read_loop fuel src i st = None) as Hloop.
  { clear fuel. induction fuel as [|fuel IH]; intros i st Hend; simpl;
      rewrite Hend, orb_true_r; [reflexivity|].
    destruct (Hsrc i) as (l & -> & Hl). apply IH.
    destruct (classify l) eqn:Hk; [|contradiction|].
    - rewrite (read_line_header _ _ Hk). reflexivity.
    - rewrite (read_line_body _ _ Hk). exact Hend. }
  assert (read_one_frame fuel src = None) as Hf
    by (unfold read_one_frame; rewrite Hloop; reflexivity).
  split; [exact Hf|]. unfold read_one_packet. rewrite Hf. reflexivity.
Qed.

Lemma no_trailer_no_return_witness :
  read_one_packet 1000 (lines_then_silence [B "/ISK5" ++ CRLF]) = None.
Proof.
  apply (no_trailer_no_return (lines_then_silence [B "/ISK5" ++ CRLF])).
  intros j. eexists. split; [reflexivity|].
  destruct j as [|[|j]]; vm_compute; discriminate.
Defined.

(** X4. Transport failure. When [readline] raises before a frame is
    complete, [read_one_packet] raises [SmartMeterError] and what it had
    accumulated is lost; and [SmartMeterError] is the only error the loop
    itself raises, and only after a [readline] that raised. *)
Theorem readline_failure_raises (src : transport) (ls : list bytes) (fuel : nat) :
  delivers src 0 ls ->
  completes false ls = false ->
  src (length ls) = Fails ->
  (length ls < fuel)%nat ->
  read_one_frame fuel src = Some (Raise SmartMeterError) /\
  read_one_packet fuel src = Some (Raise SmartMeterError) /\
  (forall fuel' e, read_one_frame fuel' src = Some (Raise e) -> e = SmartMeterError).
Proof.
  intros Hd Hc Hf Hfuel.
  assert (read_one_frame fuel src = Some (Raise SmartMeterError)) as Hr.
  { unfold read_one_frame.
    replace fuel with (length ls + S (fuel - S (length ls)))%nat by lia.
    destruct (read_loop_lines ls (S (fuel - S (length ls))) src 0 reader_init)
      as (Heq & Hp & _); [intros Hs; discriminate Hs | exact Hc | exact Hd|].
    rewrite Heq. simpl. rewrite Hf. unfold pending in Hp.
    destruct (startFound (run_lines reader_init ls));
      [rewrite Hp by reflexivity|]; reflexivity. }
  split; [exact Hr|]. split.
  - unfold read_one_packet. rewrite Hr. reflexivity.
  - intros fuel' e. unfold read_one_frame.
    destruct (read_loop fuel' src 0 reader_init) as [[st|e']|] eqn:E; try discriminate.
    intros H. inv H. apply read_loop_error in E as [-> _]. reflexivity.
Qed.

Lemma readline_failure_raises_witness :
  read_one_packet 5 (lines_then_failure [B "/ISK5" ++ CRLF; B "1-0:1.8.1(1.0*kWh)" ++ CRLF])
  = Some (Raise SmartMeterError).
Proof.
  apply (readline_failure_raises
           (lines_then_failure [B "/ISK5" ++ CRLF; B "1-0:1.8.1(1.0*kWh)" ++ CRLF])
           [B "/ISK5" ++ CRLF; B "1-0:1.8.1(1.0*kWh)" ++ CRLF] 5).
  - intros m Hm. simpl in Hm. destruct m as [|[|m]]; [reflexivity | reflexivity | lia].
  - vm_compute. reflexivity.
  - reflexivity.
  - simpl. lia.
Defined.

(** ** More on the checksum *)

Lemma log2_16 a : 0 <= a < 65536 -> Z.log2 a < 16.
Proof.
  intros H. destruct (Z.eq_dec a 0) as [->|]; [reflexivity|].
  apply Z.log2_lt_pow2; [lia|]. change (2 ^ 16) with 65536. lia.
Qed.

Lemma lxor_range a b :
  0 <= a < 65536 -> 0 <= b < 65536 -> 0 <= Z.lxor a b < 65536.
Proof.
  intros Ha Hb.
  assert (0 <= Z.lxor a b) as H0 by (apply Z.lxor_nonneg; lia).
  split; [exact H0|].
  destruct (Z.eq_dec (Z.lxor a b) 0) as [->|Hne]; [lia|].
  change 65536 with (2 ^ 16). apply Z.log2_lt_pow2; [lia|].
  eapply Z.le_lt_trans; [apply Z.log2_lxor; lia|].
  apply Z.max_lub_lt; apply log2_16; assumption.
Qed.

Lemma crc16_update_range crc x :
  0 <= crc < 65536 -> 0 <= crc16_update crc x < 65536.
Proof.
  intros H. unfold crc16_update, crc16_table.
  apply lxor_range.
  - change 0xFFFF with (Z.ones 16). rewrite Z.land_ones by lia.
    change (2 ^ 16) with 65536. apply Z.mod_pos_bound. lia.
  - rewrite Z.shiftr_div_pow2 by lia. split.
    + apply Z.div_pos; lia.
    + apply Z.div_lt_upper_bound; lia.
Qed.

(** X5. The calculated checksum is a 16-bit number, whatever the bytes. *)
Theorem crc16_range (data : bytes) : 0 <= crc16 data < 65536.
Proof.
  unfold crc16.
  assert (forall crc, 0 <= crc < 65536 ->
            0 <= fold_left crc16_update data crc < 65536) as H.
  { induction data as [|x data IH]; intros crc Hc; [exact Hc|].
    simpl. apply IH, crc16_update_range, Hc. }
  apply H. lia.
Qed.

(** X6. A trailer that spells a number of more than 16 bits, as five
    significant hex digits do, is never accepted: [validate] raises
    [P1PacketError] whatever the frame holds. *)
Theorem oversize_checksum_rejected (pre rem : bytes) (given : Z) :
  has_boundary rem = false ->
  strip rem <> [] ->
  given_checksum rem = Ok given ->
  65536 <= given ->
  validate (pre ++ CRLF ++ x21 :: rem) = Raise P1PacketError.
Proof.
  intros Hb Hs Hg Hbig.
  unfold validate. rewrite (trailer_split_last _ _ Hb).
  destruct (strip rem); [contradiction|].
  rewrite Hg, bind_Ok.
  pose proof (crc16_range (pre ++ CRLF ++ [x21])) as Hr.
  destruct (given =? crc16 (pre ++ CRLF ++ [x21])) eqn:E; [|reflexivity].
  apply Z.eqb_eq in E. lia.
Qed.

Lemma oversize_checksum_rejected_witness :
  validate (example_lines ++ CRLF ++ x21 :: B "1518D" ++ CRLF) = Raise P1PacketError.
Proof.
  apply (oversize_checksum_rejected example_lines (B "1518D" ++ CRLF) 0x1518D).
  - vm_compute. reflexivity.
  - vm_compute. discriminate.
  - vm_compute. reflexivity.
  - vm_compute. discriminate.
Defined.

(** X7. The errors of [validate]. It raises [UnboundLocalError] exactly
    when the datagram has no trailer boundary; with a boundary, the only
    errors are [UnicodeDecodeError] (a byte above 0x7f after the marker),
    [ValueError] (text after the marker that is not a base-16 number) and
    [P1PacketError] (the checksum mismatch). *)
Theorem validate_errors (d : bytes) (e : exn) :
  validate d = Raise e ->
  (has_boundary d = false /\ e = UnboundLocalError) \/
  (has_boundary d = true /\
   (e = UnicodeDecodeError \/ e = ValueError \/ e = P1PacketError)).
Proof.
  intros H. destruct (has_boundary d) eqn:Hb.
  - right. split; [reflexivity|]. unfold validate in H.
    destruct (trailer_split d) as [[packet checksum]|] eqn:Hsplit.
    + destruct (strip checksum); [discriminate H|].
      destruct (given_checksum checksum) as [g|e'] eqn:Hg.
      * rewrite bind_Ok in H. destruct (g =? crc16 packet); inv H.
        right. right. reflexivity.
      * rewrite bind_Raise in H. inv H.
        destruct (given_checksum_raises _ _ Hg) as [->| ->]; [left | right; left];
          reflexivity.
    + apply trailer_split_None_iff in Hsplit. congruence.
  - left. split; [reflexivity|].
    apply validate_unbound_iff in Hb. congruence.
Qed.

Lemma validate_errors_witness :
  has_boundary (example_lines ++ CRLF ++ x21 :: B "51 8D" ++ CRLF) = true /\
  validate (example_lines ++ CRLF ++ x21 :: B "51 8D" ++ CRLF) = Raise ValueError.
Proof.
  assert (validate (example_lines ++ CRLF ++ x21 :: B "51 8D" ++ CRLF) = Raise ValueError)
    as H by (vm_compute; reflexivity).
  split; [|exact H].
  destruct (validate_errors _ _ H) as [[_ He]|[Hb _]]; [discriminate He | exact Hb].
Defined.

(** ** More on the telegram record *)

(** X8. Reading a declared field never fails: on each of the patterns of
    [__init__], [get_float] returns the default when no line matches and,
    when one does, the float nearest to the decimal number captured; its
    [decode] and its [float] cannot raise. *)
Theorem declared_field_is_read (d : bytes) (k : string) (r : regex) (dflt : pyval) :
  In (k, r, dflt) declared_fields ->
  exists v,
    get_float d r dflt = Ok v /\
    ((re_search r d = None /\ v = dflt) \/
     (exists m ip fp,
        re_search r d = Some m /\ m_group1 m = Some (ip ++ x2e :: fp) /\
        v = PFloat (float_of_ratio (decimal_value (ip ++ fp)) (length fp)))).
Proof.
  intros Hin. pose proof (declared_fields_decimal _ _ _ Hin) as Hdec.
  exists (field d r dflt). split; [apply get_float_field, Hdec|].
  destruct (re_search r d) as [m|] eqn:Hs.
  - right. destruct (field_found d r dflt Hdec m Hs) as (ip & fp & _ & _ & _ & _ & Hg & Hf).
    exists m, ip, fp. split; [reflexivity | split; [exact Hg | exact Hf]].
  - left. split; [reflexivity | apply field_absent, Hs].
Qed.

Lemma declared_field_is_read_witness :
  exists v, get_float six_frame gas_line (PInt 0) = Ok v /\
    ((re_search gas_line six_frame = None /\ v = PInt 0) \/
     (exists m ip fp,
        re_search gas_line six_frame = Some m /\
        m_group1 m = Some (ip ++ x2e :: fp) /\
        v = PFloat (float_of_ratio (decimal_value (ip ++ fp)) (length fp)))).
Proof. apply (declared_field_is_read six_frame "G" gas_line (PInt 0)). in_list. Defined.

Ltac head_bind E :=
  match goal with |- context [bind ?m _] => destruct m eqn:E end.

Lemma extract_raises d e : extract d = Raise e -> e = TypeError.
Proof.
  rewrite extract_keys. cbv zeta.
  head_bind E1;
    [rewrite bind_Ok | rewrite bind_Raise; intros H; inv H; exact (py_add_raises _ _ _ E1)].
  head_bind E2;
    [rewrite bind_Ok | rewrite bind_Raise; intros H; inv H; exact (py_add_raises _ _ _ E2)].
  head_bind E3;
    [rewrite bind_Ok; discriminate
    | rewrite bind_Raise; intros H; inv H; exact (py_sub_raises _ _ _ E3)].
Qed.

Lemma extract_present d :
  (forall k r dflt, In (k, r, dflt) operand_fields -> re_search r d <> None) ->
  exists x1 x2 x3 x4 x5 x6,
    field d (obis_line "1-0:1.8.1" "kWh") PNone = PFloat x1 /\
    field d (obis_line "1-0:1.8.2" "kWh") PNone = PFloat x2 /\
    field d (obis_line "1-0:2.8.1" "kWh") PNone = PFloat x3 /\
    field d (obis_line "1-0:2.8.2" "kWh") PNone = PFloat x4 /\
    field d (obis_line "1-0:1.7.0" "kW") PNone = PFloat x5 /\
    field d (obis_line "1-0:2.7.0" "kW") PNone = PFloat x6 /\
    extract d = Ok (keys_of d (PFloat (float_add x1 x2)) (PFloat (float_add x3 x4))
                              (PFloat (float_sub x5 x6))).
Proof.
  intros Hop.
  assert (forall k r dflt, In (k, r, dflt) operand_fields ->
            exists x, field d r dflt = PFloat x) as Hf.
  { intros k r dflt Hin. specialize (Hop k r dflt Hin).
    assert (In (k, r, dflt) declared_fields) as Hin'
      by (unfold operand_fields, declared_fields in *; simpl in *; tauto).
    destruct (field_cases d r dflt (declared_fields_decimal _ _ _ Hin'))
      as [[Hs _]|[x [Hx _]]]; [contradiction | exists x; exact Hx]. }
  destruct (Hf "+T1" (obis_line "1-0:1.8.1" "kWh") PNone) as [x1 H1]; [in_list|].
  destruct (Hf "+T2" (obis_line "1-0:1.8.2" "kWh") PNone) as [x2 H2]; [in_list|].
  destruct (Hf "-T1" (obis_line "1-0:2.8.1" "kWh") PNone) as [x3 H3]; [in_list|].
  destruct (Hf "-T2" (obis_line "1-0:2.8.2" "kWh") PNone) as [x4 H4]; [in_list|].
  destruct (Hf "+P" (obis_line "1-0:1.7.0" "kW") PNone) as [x5 H5]; [in_list|].
  destruct (Hf "-P" (obis_line "1-0:2.7.0" "kW") PNone) as [x6 H6]; [in_list|].
  exists x1, x2, x3, x4, x5, x6. repeat (split; [assumption|]).
  rewrite extract_keys. cbv beta zeta. rewrite H1, H2, H3, H4, H5, H6. reflexivity.
Qed.

Lemma operands_present_or_absent d :
  (forall k r dflt, In (k, r, dflt) operand_fields -> re_search r d <> None) \/
  (exists k r dflt, In (k, r, dflt) operand_fields /\ re_search r d = None).
Proof.
  generalize operand_fields. intros l. induction l as [|[[k r] dflt] l IH].
  - left. intros k r dflt [].
  - destruct (re_search r d) eqn:Hs.
    + destruct IH as [IH|(k' & r' & dflt' & Hin & Hn)].
      * left. intros k' r' dflt' [H|H]; [inv H; congruence | exact (IH _ _ _ H)].
      * right. exists k', r', dflt'. split; [right; exact Hin | exact Hn].
    + right. exists k, r, dflt. split; [left; reflexivity | exact Hs].
Qed.

Lemma validate_raises d e :
  validate d = Raise e ->
  e = UnboundLocalError \/ e = UnicodeDecodeError \/ e = ValueError \/ e = P1PacketError.
Proof.
  unfold validate. destruct (trailer_split d) as [[packet checksum]|].
  - destruct (strip checksum); [discriminate|].
    destruct (given_checksum checksum) as [g|e'] eqn:Hg.
    + rewrite bind_Ok. destruct (g =? crc16 packet); intros H; inv H. tauto.
    + rewrite bind_Raise. intros H; inv H.
      destruct (given_checksum_raises _ _ Hg) as [->| ->]; tauto.
  - intros H; inv H. tauto.
Qed.

(** X9. When a packet is built. [P1Packet] builds its record exactly when
    [validate] passes and each of the six operand fields has a matching
    line; it raises [TypeError] exactly when [validate] passes and one of
    them has none; and any other error is the error of [validate]. *)
Theorem P1Packet_outcome (d : bytes) :
  ((exists keys, P1Packet d = Ok keys) <->
   (validate d = Ok tt /\
    forall k r dflt, In (k, r, dflt) operand_fields -> re_search r d <> None)) /\
  (P1Packet d = Raise TypeError <->
   (validate d = Ok tt /\
    exists k r dflt, In (k, r, dflt) operand_fields /\ re_search r d = None)) /\
  (forall e, e <> TypeError -> (P1Packet d = Raise e <-> validate d = Raise e)).
Proof.
  assert (forall k r dflt, validate d = Ok tt -> In (k, r, dflt) operand_fields ->
            re_search r d = None -> P1Packet d = Raise TypeError) as Habsent.
  { intros k r dflt Hv Hin Hs. unfold P1Packet. rewrite Hv, bind_Ok.
    exact (extract_absent_operand _ _ _ _ Hin Hs). }
  assert (validate d = Ok tt ->
          (forall k r dflt, In (k, r, dflt) operand_fields -> re_search r d <> None) ->
          exists keys, P1Packet d = Ok keys) as Hpresent.
  { intros Hv Hop. unfold P1Packet. rewrite Hv, bind_Ok.
    destruct (extract_present d Hop) as (x1 & x2 & x3 & x4 & x5 & x6 & H).
    eexists. apply H. }
  split; [|split].
  - split.
    + intros [keys Hk]. pose proof Hk as Hk'.
      apply P1Packet_keys in Hk' as [Hv _]. split; [exact Hv|].
      intros k r dflt Hin Hs. rewrite (Habsent k r dflt Hv Hin Hs) in Hk.
      discriminate Hk.
    + intros [Hv Hop]. exact (Hpresent Hv Hop).
  - split.
    + intros H. unfold P1Packet in H.
      destruct (validate d) as [[]|e] eqn:Hv.
      * split; [reflexivity|].
        destruct (operands_present_or_absent d) as [Hop|Hex]; [|exact Hex].
        destruct (Hpresent eq_refl Hop) as [keys Hk]. unfold P1Packet in Hk.
        rewrite Hv in Hk. congruence.
      * rewrite bind_Raise in H. inv H.
        destruct (validate_raises _ _ Hv) as [He|[He|[He|He]]]; discriminate He.
    + intros [Hv (k & r & dflt & Hin & Hs)]. exact (Habsent k r dflt Hv Hin Hs).
  - intros e He. unfold P1Packet. destruct (validate d) as [[]|e'] eqn:Hv.
    + rewrite bind_Ok. split; [|discriminate].
      intros H. apply extract_raises in H. contradiction.
    + rewrite bind_Raise. split; intros H; inv H; reflexivity.
Qed.

Lemma P1Packet_outcome_witness :
  (exists keys, P1Packet six_frame = Ok keys) /\
  P1Packet example_frame = Raise TypeError.
Proof.
  destruct (P1Packet_outcome six_frame) as [[_ Hbuilt] _].
  destruct (P1Packet_outcome example_frame) as [_ [[_ Htype] _]].
  split.
  - apply Hbuilt. split; [vm_compute; reflexivity|].
    intros k r dflt Hin. unfold operand_fields, declared_fields in Hin. simpl in Hin.
    repeat (destruct Hin as [Hin|Hin]; [inv Hin; vm_compute; discriminate|]).
    contradiction.
  - apply Htype. split; [vm_compute; reflexivity|].
    exists "+T2"%string, (obis_line "1-0:1.8.2" "kWh"), PNone.
    split; [in_list | vm_compute; reflexivity].
Defined.

Ltac keys_lookup :=
  first [ apply keys_of_declared; in_list
        | unfold keys_of;
          repeat (rewrite lookup_insert_eq || rewrite lookup_insert_ne by done);
          reflexivity ].

(** The dict of a record that is built. *)
Lemma record_built (d : bytes) (keys : gmap string pyval) :
  P1Packet d = Ok keys ->
  exists x1 x2 x3 x4 x5 x6,
    field d (obis_line "1-0:1.8.1" "kWh") PNone = PFloat x1 /\
    field d (obis_line "1-0:1.8.2" "kWh") PNone = PFloat x2 /\
    field d (obis_line "1-0:2.8.1" "kWh") PNone = PFloat x3 /\
    field d (obis_line "1-0:2.8.2" "kWh") PNone = PFloat x4 /\
    field d (obis_line "1-0:1.7.0" "kW") PNone = PFloat x5 /\
    field d (obis_line "1-0:2.7.0" "kW") PNone = PFloat x6 /\
    keys = keys_of d (PFloat (float_add x1 x2)) (PFloat (float_add x3 x4))
                     (PFloat (float_sub x5 x6)).
Proof.
  intros Hk. pose proof Hk as Hk'. apply P1Packet_keys in Hk' as [Hv _].
  unfold P1Packet in Hk. rewrite Hv, bind_Ok in Hk.
  destruct (operands_present_or_absent d) as [Hop|(k & r & dflt & Hin & Hs)].
  - destruct (extract_present d Hop)
      as (x1 & x2 & x3 & x4 & x5 & x6 & H1 & H2 & H3 & H4 & H5 & H6 & He).
    rewrite He in Hk. inv Hk. exists x1, x2, x3, x4, x5, x6.
    repeat (split; [assumption|]). reflexivity.
  - rewrite (extract_absent_operand _ _ _ _ Hin Hs) in Hk. discriminate Hk.
Qed.

(** X10. The derived fields of a record that is built: the six operand
    fields are floats, [+T] is the float sum of [+T1] and [+T2], [-T] that
    of [-T1] and [-T2], and [P] the float difference of [+P] and [-P]. *)
Theorem derived_fields (d : bytes) (keys : gmap string pyval) :
  P1Packet d = Ok keys ->
  exists x1 x2 x3 x4 x5 x6,
    keys !! "+T1" = Some (PFloat x1) /\ keys !! "+T2" = Some (PFloat x2) /\
    keys !! "-T1" = Some (PFloat x3) /\ keys !! "-T2" = Some (PFloat x4) /\
    keys !! "+P" = Some (PFloat x5) /\ keys !! "-P" = Some (PFloat x6) /\
    keys !! "+T" = Some (PFloat (float_add x1 x2)) /\
    keys !! "-T" = Some (PFloat (float_add x3 x4)) /\
    keys !! "P" = Some (PFloat (float_sub x5 x6)).
Proof.
  intros Hk.
  destruct (record_built d keys Hk)
    as (x1 & x2 & x3 & x4 & x5 & x6 & H1 & H2 & H3 & H4 & H5 & H6 & ->).
  exists x1, x2, x3, x4, x5, x6.
  rewrite <- H1, <- H2, <- H3, <- H4, <- H5, <- H6 at 1.
  repeat split; keys_lookup.
Qed.

Lemma six_frame_is_built : exists keys, P1Packet six_frame = Ok keys.
Proof.
  assert (P1Packet_getitem (P1Packet six_frame) "G" = Ok (PInt 0)) as H
    by (vm_compute; reflexivity).
  apply P1Packet_getitem_Ok in H as (keys & Hp & _). exists keys. exact Hp.
Qed.

Lemma derived_fields_witness :
  exists keys,
    P1Packet six_frame = Ok keys /\
    exists x1 x2 x3 x4 x5 x6,
      keys !! "+T1" = Some (PFloat x1) /\ keys !! "+T2" = Some (PFloat x2) /\
      keys !! "-T1" = Some (PFloat x3) /\ keys !! "-T2" = Some (PFloat x4) /\
      keys !! "+P" = Some (PFloat x5) /\ keys !! "-P" = Some (PFloat x6) /\
      keys !! "+T" = Some (PFloat (float_add x1 x2)) /\
      keys !! "-T" = Some (PFloat (float_add x3 x4)) /\
      keys !! "P" = Some (PFloat (float_sub x5 x6)).
Proof.
  destruct six_frame_is_built as [keys Hk].
  exists keys. split; [exact Hk | exact (derived_fields six_frame keys Hk)].
Defined.

(** X11. The keys of a record that is built: [packet[key]] has a value for
    each of the nineteen keys [__init__] assigns and raises [KeyError] for
    any other key. *)
Theorem record_has_its_keys (d : bytes) (keys : gmap string pyval) (key : string) :
  P1Packet d = Ok keys ->
  (In key record_keys -> exists v, P1Packet_getitem (P1Packet d) key = Ok v) /\
  (~ In key record_keys -> P1Packet_getitem (P1Packet d) key = Raise KeyError).
Proof.
  intros Hk. unfold P1Packet_getitem, getitem. rewrite Hk, bind_Ok.
  apply P1Packet_keys in Hk as (_ & pT & mT & P & -> & _).
  split.
  - intros Hin. unfold record_keys in Hin. simpl in Hin.
    repeat (destruct Hin as [<-|Hin];
            [unfold keys_of;
             repeat (rewrite lookup_insert_eq || rewrite lookup_insert_ne by done);
             eexists; reflexivity|]).
    contradiction.
  - intros Hnin. destruct (keys_of d pT mT P !! key) as [v|] eqn:Hl; [|reflexivity].
    exfalso. apply Hnin.
    apply keys_of_lookup in Hl as [(r & dflt & Hin & _)|[[-> _]|[[-> _]|[-> _]]]];
      [|in_list..].
    unfold declared_fields in Hin. simpl in Hin.
    repeat (destruct Hin as [Hin|Hin]; [inv Hin; in_list|]). contradiction.
Qed.

Lemma record_has_its_keys_witness :
  (exists v, P1Packet_getitem (P1Packet six_frame) "V_3" = Ok v) /\
  P1Packet_getitem (P1Packet six_frame) "T" = Raise KeyError.
Proof.
  destruct six_frame_is_built as [keys Hk].
  split.
  - apply (record_has_its_keys six_frame keys "V_3" Hk). in_list.
  - apply (record_has_its_keys six_frame keys "T" Hk).
    unfold record_keys. simpl. intros H.
    repeat (destruct H as [H|H]; [discriminate H|]). contradiction.
Defined.

(** ** [get_int] and empty captures *)

Lemma is_digit_cases c :
  is_digit c = true ->
  Byte.eqb c x5f = false /\ is_space c = false /\ c <> x2b /\ c <> x2d.
Proof. destruct c; try discriminate; intros _; repeat split; discriminate. Qed.

Lemma decode_ascii_digits ds :
  forallb is_digit ds = true -> decode_ascii ds = Ok ds.
Proof.
  intros H. unfold decode_ascii.
  rewrite (forallb_impl is_digit); [reflexivity | apply is_digit_ascii | exact H].
Qed.

Lemma dec_scan_digits ds rest acc n :
  forallb is_digit ds = true ->
  dec_scan (ds ++ rest) acc n false
  = dec_scan rest (fold_left (fun a c => 10 * a + digit_value c) ds acc)
             (n + length ds) false.
Proof.
  revert acc n. induction ds as [|c ds IH]; intros acc n H.
  - simpl. rewrite Nat.add_0_r. reflexivity.
  - simpl in H. apply andb_prop in H as [Hc H].
    destruct (is_digit_cases c Hc) as (Hu & _).
    cbn [app dec_scan fold_left length]. rewrite Hu, Hc, IH by exact H.
    f_equal. lia.
Qed.

Section GetIntFacts.
Variable max_str_digits : nat.

(** [int] of a run of digits. *)
Lemma int10_digits ds :
  ds <> [] -> forallb is_digit ds = true ->
  int10 max_str_digits ds
  = if (640 <? length ds)%nat && (0 <? max_str_digits)%nat
       && (max_str_digits <? length ds)%nat
    then Raise ValueError
    else Ok (decimal_value ds).
Proof.
  intros Hne Hd. destruct ds as [|c ds]; [contradiction|].
  pose proof Hd as Hd'. simpl in Hd'. apply andb_prop in Hd' as [Hc _].
  destruct (is_digit_cases c Hc) as (Hu & Hsp & Hp & Hm).
  unfold int10, lstrip. cbn [lstrip_with]. rewrite Hsp.
  assert (dec_scan (c :: ds) 0 0 false
          = Some (decimal_value (c :: ds), length (c :: ds), [])) as Hscan.
  { rewrite <- (app_nil_r (c :: ds)) at 1. rewrite dec_scan_digits by exact Hd.
    reflexivity. }
  destruct c; try discriminate Hc; rewrite Hscan; reflexivity.
Qed.

(** [int] of a decimal number with a fraction part. *)
Lemma int10_decimal ip fp :
  ip <> [] -> forallb is_digit ip = true ->
  int10 max_str_digits (ip ++ x2e :: fp) = Raise ValueError.
Proof.
  intros Hne Hd. destruct ip as [|c ip]; [contradiction|].
  pose proof Hd as Hd'. simpl in Hd'. apply andb_prop in Hd' as [Hc _].
  destruct (is_digit_cases c Hc) as (Hu & Hsp & Hp & Hm).
  unfold int10, lstrip. cbn [lstrip_with app]. rewrite Hsp.
  assert (dec_scan (c :: ip ++ x2e :: fp) 0 0 false
          = Some (decimal_value (c :: ip), length (c :: ip), x2e :: fp)) as Hscan.
  { change (c :: ip ++ x2e :: fp) with ((c :: ip) ++ x2e :: fp).
    rewrite dec_scan_digits by exact Hd. reflexivity. }
  destruct c; try discriminate Hc; rewrite Hscan; cbn [length];
    destruct (_ && _); reflexivity.
Qed.

(** X12. An empty capture counts as no capture: when the pattern matches
    with nothing in its group, [get_float] and [get_int] both return the
    default, as the test [not result] is also true of the empty string. *)
Theorem empty_capture_is_default (d : bytes) (r : regex) (dflt : pyval) (m : rmatch) :
  re_search r d = Some m ->
  m_group1 m = Some [] ->
  get_float d r dflt = Ok dflt /\ get_int max_str_digits d r dflt = Ok dflt.
Proof.
  intros Hs Hg. unfold get_float, get_int, get. rewrite Hs, Hg.
  split; reflexivity.
Qed.

(** X13. [get_int] on the patterns of [__init__]: the default when no line
    matches, and [ValueError] whenever one does, since the text captured has
    a fraction part that [int] refuses. *)
Theorem get_int_declared (d : bytes) (k : string) (r : regex) (dflt0 dflt : pyval) :
  In (k, r, dflt0) declared_fields ->
  (re_search r d = None -> get_int max_str_digits d r dflt = Ok dflt) /\
  (re_search r d <> None -> get_int max_str_digits d r dflt = Raise ValueError).
Proof.
  intros Hin. pose proof (declared_fields_decimal _ _ _ Hin) as Hdec.
  unfold get_int, get. destruct (re_search r d) as [m|] eqn:Hs.
  - split; [discriminate|]. intros _.
    destruct (field_found d r dflt0 Hdec m Hs) as (ip & fp & Hi & Hf & Hdi & Hdf & Hg & _).
    rewrite Hg, (decode_ascii_decimal _ _ Hdi Hdf), !bind_Ok.
    destruct ip as [|c ip]; [contradiction|].
    cbn [app truthy negb bool_decide]. rewrite bool_decide_eq_false_2 by discriminate.
    cbn [negb py_int].
    change (c :: ip ++ x2e :: fp) with ((c :: ip) ++ x2e :: fp).
    rewrite (int10_decimal _ _ Hi Hdi). reflexivity.
  - split; [reflexivity | contradiction].
Qed.

(** X14. [get_int] on a pattern that captures digits: the integer they
    spell, or [ValueError] when they are more than the interpreter's limit
    allows. *)
Theorem get_int_digits (d : bytes) (r : regex) (dflt : pyval) (m : rmatch) (ds : bytes) :
  re_search r d = Some m ->
  m_group1 m = Some ds ->
  ds <> [] ->
  forallb is_digit ds = true ->
  get_int max_str_digits d r dflt
  = if (640 <? length ds)%nat && (0 <? max_str_digits)%nat
       && (max_str_digits <? length ds)%nat
    then Raise ValueError
    else Ok (PInt (decimal_value ds)).
Proof.
  intros Hs Hg Hne Hd. unfold get_int, get.
  rewrite Hs, Hg, (decode_ascii_digits _ Hd), !bind_Ok.
  destruct ds as [|c ds]; [contradiction|].
  cbn [truthy]. rewrite bool_decide_eq_false_2 by discriminate. cbn [negb py_int].
  rewrite (int10_digits _ Hne Hd). destruct (_ && _); reflexivity.
Qed.
End GetIntFacts.

Lemma empty_capture_is_default_witness :
  get_float (B "kWh") digits_opt (PInt 7) = Ok (PInt 7) /\
  get_int 4300 (B "kWh") digits_opt (PInt 7) = Ok (PInt 7).
Proof.
  apply (empty_capture_is_default 4300 (B "kWh") digits_opt (PInt 7) (RMatch 0 0 (Some [])));
    vm_compute; reflexivity.
Defined.

Lemma get_int_declared_witness :
  get_int 4300 six_frame (obis_line "1-0:1.8.1" "kWh") PNone = Raise ValueError.
Proof.
  apply (get_int_declared 4300 six_frame "+T1" (obis_line "1-0:1.8.1" "kWh") PNone PNone).
  - in_list.
  - vm_compute. discriminate.
Defined.

Lemma get_int_digits_witness :
  get_int 4300 (B "ab0042c") digits_run PNone = Ok (PInt 42).
Proof.
  apply (get_int_digits 4300 (B "ab0042c") digits_run PNone
           (RMatch 2 6 (Some (B "0042"))) (B "0042"));
    first [vm_compute; reflexivity | discriminate].
Defined.

(** ** The request sent to InfluxDB *)

Lemma split_on_no_sep sep s :
  ~ In sep (String.list_ascii_of_string s) -> split_on sep s = [s].
Proof.
  induction s as [|c s IH]; intros H; [reflexivity|].
  cbn [String.list_ascii_of_string In] in H. cbn [split_on].
  destruct (Ascii.eqb_spec c sep) as [->|_]; [exfalso; apply H; left; reflexivity|].
  rewrite IH by (intros Hin; apply H; right; exact Hin). reflexivity.
Qed.

Lemma split_on_sep sep k rest :
  ~ In sep (String.list_ascii_of_string k) ->
  split_on sep (k +:+ String sep rest) = k :: split_on sep rest.
Proof.
  induction k as [|c k IH]; intros H.
  - change (EmptyString +:+ String sep rest) with (String sep rest).
    cbn [split_on]. rewrite Ascii.eqb_refl. reflexivity.
  - cbn [String.list_ascii_of_string In] in H.
    change (String c k +:+ String sep rest) with (String c (k +:+ String sep rest)).
    cbn [split_on].
    destruct (Ascii.eqb_spec c sep) as [->|_]; [exfalso; apply H; left; reflexivity|].
    rewrite IH by (intros Hin; apply H; right; exact Hin). reflexivity.
Qed.

Lemma split_on_key_value sep k v rest :
  ~ In sep (String.list_ascii_of_string k) ->
  ~ In sep (String.list_ascii_of_string v) ->
  rest = EmptyString \/ (exists r, rest = String sep r) ->
  exists more, split_on sep (k +:+ String sep (v +:+ rest)) = k :: v :: more.
Proof.
  intros Hk Hv Hrest. rewrite (split_on_sep _ _ _ Hk).
  destruct Hrest as [->|[r ->]].
  - assert (v +:+ EmptyString = v) as ->.
    { clear. induction v as [|c v IH]; [reflexivity|].
      change (String c v +:+ EmptyString) with (String c (v +:+ EmptyString)).
      rewrite IH. reflexivity. }
    exists []. rewrite (split_on_no_sep _ _ Hv). reflexivity.
  - exists (split_on sep r). rewrite (split_on_sep _ _ _ Hv). reflexivity.
Qed.

Lemma fold_add_tag_None l : fold_left add_tag l None = None.
Proof. induction l as [|t l IH]; [reflexivity | exact IH]. Qed.

Lemma fold_add_tag_bad l tag acc :
  In tag l -> ~ In equals_sign (String.list_ascii_of_string tag) ->
  fold_left add_tag l acc = None.
Proof.
  intros Hin Hno. revert acc. induction l as [|t l IH]; intros acc; [destruct Hin|].
  destruct Hin as [->|Hin]; [|apply (IH Hin)].
  cbn [fold_left]. replace (add_tag acc tag) with (@None (gmap string string)).
  - apply fold_add_tag_None.
  - unfold add_tag. rewrite (split_on_no_sep _ _ Hno). destruct acc; reflexivity.
Qed.

Lemma fold_add_tag_text cs : forall acc,
  fold_left add_tag (map (fun c => String c EmptyString) cs) (Some acc)
  = if forallb (fun c => Ascii.eqb c equals_sign) cs
    then Some (match cs with
               | [] => acc
               | _ :: _ => <[EmptyString := EmptyString]> acc
               end)
    else None.
Proof.
  induction cs as [|c cs IH]; intros acc; [reflexivity|].
  cbn [map fold_left forallb]. destruct (Ascii.eqb_spec c equals_sign) as [->|Hc].
  - change (add_tag (Some acc) (String equals_sign EmptyString))
      with (Some (<[EmptyString := EmptyString]> acc)).
    rewrite IH. cbn [andb]. destruct (forallb _ cs); [|reflexivity].
    destruct cs; [reflexivity|]. rewrite insert_insert_eq. reflexivity.
  - replace (add_tag (Some acc) (String c EmptyString)) with (@None (gmap string string)).
    + apply fold_add_tag_None.
    + unfold add_tag. rewrite split_on_no_sep; [reflexivity|].
      cbn [String.list_ascii_of_string In]. intros [H|[]]. apply Hc. congruence.
Qed.

Lemma request_fields_lookup (m : gmap string pyval) (k : string) :
  request_fields m !! k
  = match m !! k with
    | Some PNone => None
    | o => o
    end.
Proof.
  unfold request_fields. destruct (m !! k) as [v|] eqn:Hm.
  - destruct (is_None v) eqn:Hv.
    + destruct v; try discriminate Hv.
      apply map_lookup_filter_None. right. intros x Hx.
      rewrite Hm in Hx. inv Hx. cbn. discriminate.
    + transitivity (Some v); [|destruct v; [discriminate Hv|reflexivity..]].
      apply map_lookup_filter_Some. split; [exact Hm | exact Hv].
  - apply map_lookup_filter_None. left. exact Hm.
Qed.

Section Sender.
Variable db : database.

(** X15. A tag without [=] stops the sender: when one of the items of
    [options.influx_tags] has no [=], [send_to_influxdb] raises
    [IndexError] before the client is built, and nothing is written. *)
Theorem tag_without_separator_raises (o : options) (t : tags_arg) (tag : string)
    (fields : gmap string pyval) (log : list write_call) :
  influx_tags o = Some t ->
  In tag (tag_items t) ->
  ~ In equals_sign (String.list_ascii_of_string tag) ->
  send_to_influxdb db o fields log = (Some IndexError, log).
Proof.
  intros Ht Hin Hno. unfold send_to_influxdb, request_tags. rewrite Ht.
  rewrite (fold_add_tag_bad _ _ _ Hin Hno). reflexivity.
Qed.

(** X16. Tags given as one str, which is how the argument parser stores its
    optional positional argument: the loop takes the str character by
    character, so the request is sent only when the str is made of [=]
    alone, with the one tag whose key and value are empty; any other
    character raises [IndexError] and nothing is written. *)
Theorem text_tags_outcome (o : options) (s : string)
    (fields : gmap string pyval) (log : list write_call) :
  influx_tags o = Some (TagText s) ->
  send_to_influxdb db o fields log
  = if forallb (fun c => Ascii.eqb c equals_sign) (String.list_ascii_of_string s)
    then (if db (length log) then None else Some ClientError,
          log ++ [client_call o
                    (Point (influx_measurement o)
                           (match s with
                            | EmptyString => ∅
                            | String _ _ => {[ EmptyString := EmptyString ]}
                            end)
                           (request_fields fields))])
    else (Some IndexError, log).
Proof.
  intros Ht. unfold send_to_influxdb, request_tags, tag_items. rewrite Ht.
  rewrite fold_add_tag_text.
  destruct (forallb _ _); [|reflexivity]. destruct s; reflexivity.
Qed.

(** X17. A tag [key=value]: an item with a [=] sets the tag named by the
    text before its first [=] to the text between its first and its second
    [=]; what follows a second [=] is dropped. *)
Theorem tag_is_split (l : list string) (k v rest : string) (tags : gmap string string) :
  ~ In equals_sign (String.list_ascii_of_string k) ->
  ~ In equals_sign (String.list_ascii_of_string v) ->
  rest = EmptyString \/ (exists r, rest = String equals_sign r) ->
  request_tags (Some (TagList l)) = Some tags ->
  request_tags (Some (TagList (l ++ [k +:+ String equals_sign (v +:+ rest)])))
  = Some (<[k := v]> tags).
Proof.
  intros Hk Hv Hrest Hl. unfold request_tags, tag_items in *.
  rewrite fold_left_app, Hl. cbn [fold_left add_tag].
  destruct (split_on_key_value _ _ _ _ Hk Hv Hrest) as [more ->]. reflexivity.
Qed.

(** X18. The fields written for a record: no field of the point is
    [None]; the six operand fields, the three derived ones and [G] are
    always there; and a field whose default is [None] is left out exactly
    when no line of the telegram matches its pattern. *)
Theorem record_point_fields (d : bytes) (keys : gmap string pyval) :
  P1Packet d = Ok keys ->
  (forall k v, request_fields keys !! k = Some v -> v <> PNone /\ keys !! k = Some v) /\
  (forall k,
     In k ["+T1"; "+T2"; "-T1"; "-T2"; "+P"; "-P"; "+T"; "-T"; "P"; "G"]%string ->
     is_Some (request_fields keys !! k)) /\
  (forall k r,
     In (k, r, PNone) declared_fields ->
     (request_fields keys !! k = None <-> re_search r d = None)).
Proof.
  intros Hk. split; [|split].
  - intros k v. rewrite request_fields_lookup.
    destruct (keys !! k) as [[]|]; intros H; inv H; split; (discriminate || reflexivity).
  - intros k Hin.
    destruct (record_built d keys Hk)
      as (x1 & x2 & x3 & x4 & x5 & x6 & F1 & F2 & F3 & F4 & F5 & F6 & ->).
    set (pT := PFloat (float_add x1 x2)). set (mT := PFloat (float_add x3 x4)).
    set (P := PFloat (float_sub x5 x6)).
    assert (keys_of d pT mT P !! "+T1"%string = Some (PFloat x1)) as H1
      by (rewrite <- F1; keys_lookup).
    assert (keys_of d pT mT P !! "+T2"%string = Some (PFloat x2)) as H2
      by (rewrite <- F2; keys_lookup).
    assert (keys_of d pT mT P !! "-T1"%string = Some (PFloat x3)) as H3
      by (rewrite <- F3; keys_lookup).
    assert (keys_of d pT mT P !! "-T2"%string = Some (PFloat x4)) as H4
      by (rewrite <- F4; keys_lookup).
    assert (keys_of d pT mT P !! "+P"%string = Some (PFloat x5)) as H5
      by (rewrite <- F5; keys_lookup).
    assert (keys_of d pT mT P !! "-P"%string = Some (PFloat x6)) as H6
      by (rewrite <- F6; keys_lookup).
    assert (keys_of d pT mT P !! "+T"%string = Some pT) as HT by keys_lookup.
    assert (keys_of d pT mT P !! "-T"%string = Some mT) as HmT by keys_lookup.
    assert (keys_of d pT mT P !! "P"%string = Some P) as HP by keys_lookup.
    assert (exists v, keys_of d pT mT P !! "G"%string = Some v /\ v <> PNone)
      as (g & HG & Hg).
    { exists (field d gas_line (PInt 0)).
      split; [apply keys_of_declared; in_list|].
      destruct (field_cases d gas_line (PInt 0) gas_line_decimal) as [[_ ->]|[x [-> _]]];
        discriminate. }
    rewrite request_fields_lookup. simpl in Hin.
    repeat (destruct Hin as [<-|Hin];
            [first [ rewrite H1 | rewrite H2 | rewrite H3 | rewrite H4 | rewrite H5
                   | rewrite H6 | rewrite HT | rewrite HmT | rewrite HP ]; eexists; reflexivity|]).
    destruct Hin as [<-|[]]. rewrite HG. destruct g; [contradiction | eexists; reflexivity..].
  - intros k r Hin. rewrite request_fields_lookup.
    apply P1Packet_keys in Hk as (_ & pT & mT & P & -> & _).
    rewrite (keys_of_declared d pT mT P _ _ _ Hin).
    destruct (field_cases d r PNone (declared_fields_decimal _ _ _ Hin))
      as [[Hs Hf]|[x [Hf _]]]; rewrite Hf.
    + split; [intros _; exact Hs | reflexivity].
    + split; [discriminate|]. intros Hs.
      rewrite (field_absent d r PNone Hs) in Hf. discriminate Hf.
Qed.
End Sender.

Lemma tag_without_separator_raises_witness :
  send_to_influxdb db_accepts
    (Options "/dev/ttyUSB0" (PStr (B "115200")) "localhost" 8086 "root" "root"
             "p1smartmeter" None "" false "smartmeter"
             (Some (TagList ["host=pi"; "attic"]%string)))
    ∅ []
  = (Some IndexError, []).
Proof.
  apply (tag_without_separator_raises db_accepts _ (TagList ["host=pi"; "attic"]%string)
           "attic"%string).
  - reflexivity.
  - in_list.
  - vm_compute. intros H.
    repeat (destruct H as [H|H]; [discriminate H|]). contradiction.
Defined.

Lemma text_tags_outcome_witness :
  send_to_influxdb db_accepts (tagged_options "host=pi") ∅ [] = (Some IndexError, []).
Proof.
  apply (text_tags_outcome db_accepts (tagged_options "host=pi") "host=pi" ∅ []).
  reflexivity.
Defined.

Lemma tag_is_split_witness :
  request_tags (Some (TagList ["host=pi"; "room=attic=north"]%string))
  = Some (<["room"%string := "attic"%string]> {[ "host"%string := "pi"%string ]}).
Proof.
  apply (tag_is_split ["host=pi"%string] "room" "attic" "=north"
           {[ "host"%string := "pi"%string ]}).
  - vm_compute. intros H. repeat (destruct H as [H|H]; [discriminate H|]). contradiction.
  - vm_compute. intros H. repeat (destruct H as [H|H]; [discriminate H|]). contradiction.
  - right. eexists. reflexivity.
  - vm_compute. reflexivity.
Defined.

Lemma record_point_fields_witness :
  exists keys,
    P1Packet six_frame = Ok keys /\
    is_Some (request_fields keys !! "P"%string) /\
    request_fields keys !! "V_1"%string = None.
Proof.
  destruct six_frame_is_built as [keys Hk]. exists keys.
  destruct (record_point_fields six_frame keys Hk) as (_ & Hall & Hopt).
  split; [exact Hk|]. split.
  - apply Hall. in_list.
  - apply (Hopt "V_1"%string (obis_line "1-0:32.7.0" "V")); [in_list|].
    vm_compute. reflexivity.
Defined.

(** ** The monitor *)

Lemma send_with_baudrate db o b fields log :
  send_to_influxdb db (with_baudrate o b) fields log = send_to_influxdb db o fields log.
Proof. reflexivity. Qed.

Lemma monitor_loop_with_baudrate db o b fuel : forall src log,
  monitor_loop db fuel (with_baudrate o b) src log = monitor_loop db fuel o src log.
Proof.
  induction fuel as [|fuel IH]; intros src log; [reflexivity|].
  cbn [monitor_loop]. destruct (read_one_packet fuel src) as [[keys|e]|]; try reflexivity.
  rewrite send_with_baudrate. destruct (send_to_influxdb db o keys log) as [[f|] log'];
    [reflexivity | apply IH].
Qed.

(** The sender either leaves the log as it is and raises [IndexError], or
    adds its one call to it. *)
Lemma send_outcome db o fields log :
  (request_tags (influx_tags o) = None /\
   send_to_influxdb db o fields log = (Some IndexError, log)) \/
  (exists tags,
     request_tags (influx_tags o) = Some tags /\
     send_to_influxdb db o fields log
     = (if db (length log) then None else Some ClientError,
        log ++ [client_call o (Point (influx_measurement o) tags (request_fields fields))])).
Proof.
  unfold send_to_influxdb. destruct (request_tags (influx_tags o)) as [tags|].
  - right. exists tags. split; reflexivity.
  - left. split; reflexivity.
Qed.

Lemma read_one_packet_Ok fuel src keys :
  read_one_packet fuel src = Some (Ok keys) ->
  exists d, read_one_frame fuel src = Some (Ok d) /\ P1Packet d = Ok keys.
Proof.
  unfold read_one_packet. destruct (read_one_frame fuel src) as [[d|e]|]; try discriminate.
  intros H. exists d. split; [reflexivity | congruence].
Qed.

(** One telegram read, parsed and written: the loop goes on with the rest
    of the transport. *)
Lemma monitor_loop_next db o fuel src log keys tags :
  read_one_packet fuel src = Some (Ok keys) ->
  request_tags (influx_tags o) = Some tags ->
  db (length log) = true ->
  monitor_loop db (S fuel) o src log
  = monitor_loop db fuel o (skip_lines src (lines_taken fuel src))
      (log ++ [client_call o (Point (influx_measurement o) tags (request_fields keys))]).
Proof.
  intros Hr Ht Hdb. cbn [monitor_loop]. rewrite Hr.
  unfold send_to_influxdb. rewrite Ht, Hdb. reflexivity.
Qed.

Lemma monitor_loop_raises db o fuel src log e :
  read_one_packet fuel src = Some (Raise e) ->
  monitor_loop db (S fuel) o src log = Some (Exn e, log).
Proof. intros Hr. cbn [monitor_loop]. rewrite Hr. reflexivity. Qed.

Lemma read_one_packet_fails fuel src :
  src 0%nat = Fails -> read_one_packet (S fuel) src = Some (Raise SmartMeterError).
Proof.
  intros H. unfold read_one_packet, read_one_frame. cbn. rewrite H. reflexivity.
Qed.

(** A telegram and then a failure of the transport. *)
Lemma monitor_loop_telegram_then_failure db o src pre body h t keys tags log fuel :
  delivers src 0 (pre ++ h :: body ++ [t]) ->
  completes false pre = false ->
  classify h = HeaderLine ->
  forallb is_body body = true ->
  classify t = TrailerLine ->
  src (length (pre ++ h :: body ++ [t])) = Fails ->
  P1Packet (lstrip h ++ concat body ++ t) = Ok keys ->
  request_tags (influx_tags o) = Some tags ->
  db (length log) = true ->
  (length (pre ++ h :: body ++ [t]) < fuel)%nat ->
  monitor_loop db fuel o src log
  = Some (Exn SmartMeterError,
          log ++ [client_call o (Point (influx_measurement o) tags (request_fields keys))]).
Proof.
  intros Hsrc Hpre Hh Hbody Htr Hfail Hk Htags Hdb Hfuel.
  set (n := length (pre ++ h :: body ++ [t])) in *.
  assert (2 <= n)%nat as Hn.
  { subst n. rewrite length_app. cbn [length]. rewrite length_app. cbn [length]. lia. }
  destruct fuel as [|f]; [lia|].
  assert (read_loop f src 0 reader_init
          = Some (Ok (Reader (lstrip h ++ concat body ++ t) n true true))) as Hloop.
  { replace f with (n + (f - n))%nat by lia.
    exact (read_loop_assembles src pre body h t Hsrc Hpre Hh Hbody Htr (f - n)). }
  assert (read_one_packet f src = Some (Ok keys)) as Hr.
  { unfold read_one_packet, read_one_frame. rewrite Hloop. cbn [r_datagram].
    rewrite Hk. reflexivity. }
  rewrite (monitor_loop_next db o f src log keys tags Hr Htags Hdb).
  unfold lines_taken. rewrite Hloop. cbn [lines_read].
  destruct f as [|f]; [lia|]. destruct f as [|f]; [lia|].
  apply monitor_loop_raises, read_one_packet_fails.
  unfold skip_lines. rewrite Nat.add_0_r. exact Hfail.
Qed.

Lemma monitor_loop_no_IndexError db o tags fuel : forall src log f log',
  request_tags (influx_tags o) = Some tags ->
  monitor_loop db fuel o src log = Some (f, log') -> f <> IndexError.
Proof.
  induction fuel as [|fuel IH]; intros src log f log' Ht H; [discriminate H|].
  cbn [monitor_loop] in H.
  destruct (read_one_packet fuel src) as [[keys|e]|]; [|inv H; discriminate|discriminate H].
  unfold send_to_influxdb in H. rewrite Ht in H.
  destruct (db (length log)); [exact (IH _ _ _ _ Ht H) | inv H; discriminate].
Qed.

Section MonitorFacts.
Variable Serial_open : string -> pyval -> open_outcome.
Variable db : database.

(** X19. The [--baudrate] option has no effect: [start_monitor] hands it to
    [SmartMeter] by position, where [__init__] looks for it by keyword, so
    the port is opened at 115200 whatever the option says, and the monitor
    runs the same. *)
Theorem baudrate_option_unused (fuel : nat) (o : options) (b : pyval) (src : transport) :
  start_monitor Serial_open db fuel (with_baudrate o b) src
  = start_monitor Serial_open db fuel o src /\
  match SmartMeter Serial_open (device o) [baudrate o] ∅ with
  | Ok m => port_baudrate m = PInt 115200
  | Raise _ => True
  end.
Proof.
  split.
  - unfold start_monitor. cbn [device with_baudrate].
    unfold SmartMeter. rewrite lookup_empty. cbn [default].
    destruct (Serial_open (device o) (PInt 115200)); try reflexivity.
    rewrite monitor_loop_with_baudrate. reflexivity.
  - unfold SmartMeter. rewrite lookup_empty. cbn [default].
    destruct (Serial_open (device o) (PInt 115200)); cbn; trivial.
Qed.

(** X20. The monitor stops at the first telegram that fails: when reading
    or parsing the first telegram raises, [start_monitor] ends with that
    exception; nothing has been written, and the [finally] clause has
    closed the port. *)
Theorem monitor_stops_at_first_failure (fuel : nat) (o : options) (src : transport)
    (e : exn) :
  Serial_open (device o) (PInt 115200) = Opened ->
  read_one_packet fuel src = Some (Raise e) ->
  start_monitor Serial_open db (S fuel) o src
  = Some (MonitorEnd (Exn e) (Some (Serial (device o) (PInt 115200) false false)) []).
Proof.
  intros Hopen Hr. unfold start_monitor, SmartMeter.
  rewrite lookup_empty. cbn [default]. rewrite Hopen.
  rewrite (monitor_loop_raises db o fuel src [] e Hr). reflexivity.
Qed.

(** X21. What the monitor writes: when the loop ends, the calls it has
    issued are one point each, built from the record of a telegram that
    passed [validate] and from the tags of the options; if it ended with
    [IndexError] it has issued none, and if it ended with an error of the
    client, the call that failed is the last one issued. *)
Theorem monitor_writes_records (fuel : nat) (o : options) (src : transport)
    (log log' : list write_call) (f : fault) :
  monitor_loop db fuel o src log = Some (f, log') ->
  exists new,
    log' = log ++ new /\
    Forall (fun c => exists tags d keys,
              request_tags (influx_tags o) = Some tags /\
              P1Packet d = Ok keys /\
              c = client_call o (Point (influx_measurement o) tags (request_fields keys)))
           new /\
    (f = IndexError -> new = []) /\
    (f = ClientError ->
     exists earlier c, new = earlier ++ [c] /\ db (length log + length earlier)%nat = false).
Proof.
  revert src log. induction fuel as [|fuel IH]; intros src log H; [discriminate H|].
  cbn [monitor_loop] in H.
  destruct (read_one_packet fuel src) as [[keys|e]|] eqn:Hr; [| |discriminate H].
  - apply read_one_packet_Ok in Hr as (d & _ & Hk).
    destruct (send_outcome db o keys log) as [[Ht Hs]|(tags & Ht & Hs)];
      rewrite Hs in H.
    + inv H. exists []. rewrite app_nil_r.
      split; [reflexivity|]. split; [constructor|]. split; [reflexivity | discriminate].
    + set (c := client_call o (Point (influx_measurement o) tags (request_fields keys))) in *.
      assert (exists tags d keys,
                request_tags (influx_tags o) = Some tags /\ P1Packet d = Ok keys /\
                c = client_call o (Point (influx_measurement o) tags (request_fields keys)))
        as Hc by (exists tags, d, keys; split; [exact Ht | split; [exact Hk | reflexivity]]).
      destruct (db (length log)) eqn:Hdb.
      * pose proof (monitor_loop_no_IndexError db o tags _ _ _ _ _ Ht H) as Hni.
        apply IH in H as (new & -> & Hall & _ & Hce).
        exists (c :: new). rewrite <- app_assoc.
        split; [reflexivity|]. split; [constructor; assumption|].
        split; [intros ->; contradiction|].
        intros Hf. destruct (Hce Hf) as (earlier & c' & -> & Hfalse).
        exists (c :: earlier), c'. split; [reflexivity|].
        rewrite length_app in Hfalse. cbn [length] in *.
        replace (length log + S (length earlier))%nat
          with (length log + 1 + length earlier)%nat by lia.
        exact Hfalse.
      * inv H. exists [c]. split; [reflexivity|].
        split; [constructor; [exact Hc | constructor]|].
        split; [discriminate|]. intros _. exists [], c.
        split; [reflexivity|]. cbn [length]. rewrite Nat.add_0_r. exact Hdb.
  - inv H. exists []. rewrite app_nil_r.
    split; [reflexivity|]. split; [constructor|]. split; [reflexivity | discriminate].
Qed.

(** X22. One telegram and then a failure of the transport: the monitor
    writes the point of that telegram, ends with [SmartMeterError] and
    closes the port. *)
Theorem monitor_telegram_then_failure (fuel : nat) (o : options) (src : transport)
    (pre body : list bytes) (h t : bytes) (keys : gmap string pyval)
    (tags : gmap string string) :
  Serial_open (device o) (PInt 115200) = Opened ->
  delivers src 0 (pre ++ h :: body ++ [t]) ->
  completes false pre = false ->
  classify h = HeaderLine ->
  forallb is_body body = true ->
  classify t = TrailerLine ->
  src (length (pre ++ h :: body ++ [t])) = Fails ->
  P1Packet (lstrip h ++ concat body ++ t) = Ok keys ->
  request_tags (influx_tags o) = Some tags ->
  db 0%nat = true ->
  (length (pre ++ h :: body ++ [t]) < fuel)%nat ->
  start_monitor Serial_open db fuel o src
  = Some (MonitorEnd (Exn SmartMeterError)
            (Some (Serial (device o) (PInt 115200) false false))
            [client_call o (Point (influx_measurement o) tags (request_fields keys))]).
Proof.
  intros Hopen Hsrc Hpre Hh Hbody Htr Hfail Hk Htags Hdb Hfuel.
  unfold start_monitor, SmartMeter. rewrite lookup_empty. cbn [default]. rewrite Hopen.
  rewrite (monitor_loop_telegram_then_failure db o src pre body h t keys tags [] fuel
             Hsrc Hpre Hh Hbody Htr Hfail Hk Htags Hdb Hfuel).
  reflexivity.
Qed.
(** X23. A port that cannot be opened: [SerialException] and [OSError]
    from the constructor of the port leave [SmartMeter] as
    [SmartMeterError]; the constructor stands before the [try], so
    [start_monitor] ends at once, with nothing read or written and no port
    to close. *)
Theorem port_failure_ends_monitor (fuel : nat) (o : options) (src : transport) :
  Serial_open (device o) (PInt 115200) = SerialException \/
  Serial_open (device o) (PInt 115200) = OSError ->
  SmartMeter Serial_open (device o) [baudrate o] ∅ = Raise SmartMeterError /\
  start_monitor Serial_open db fuel o src
  = Some (MonitorEnd (Exn SmartMeterError) None []).
Proof.
  intros H. unfold start_monitor, SmartMeter. rewrite lookup_empty. cbn [default].
  destruct H as [-> | ->]; split; reflexivity.
Qed.

(** X24. Closing the port: after [disconnect] the meter is not connected,
    whatever its state was; a second [disconnect] changes nothing, and the
    name and the settings of the port are kept. *)
Theorem disconnect_closes (m : serial_port) :
  connected (disconnect m) = false /\
  disconnect (disconnect m) = disconnect m /\
  name (disconnect m) = name m /\
  port_baudrate (disconnect m) = port_baudrate m /\
  rts (disconnect m) = rts m.
Proof.
  unfold connected, disconnect. destruct m as [n b [] r]; cbn; repeat split.
Qed.
End MonitorFacts.

Lemma six_frame_lines_frame :
  lstrip (B "/ISK5" ++ CRLF)
  ++ concat [B "1-0:1.8.1(000123.456*kWh)" ++ CRLF;
             B "1-0:1.8.2(000234.567*kWh)" ++ CRLF;
             B "1-0:2.8.1(000010.000*kWh)" ++ CRLF;
             B "1-0:2.8.2(000020.500*kWh)" ++ CRLF;
             B "1-0:1.7.0(00.250*kW)" ++ CRLF;
             B "1-0:2.7.0(01.500*kW)" ++ CRLF]
  ++ (x21 :: B "F2F9" ++ CRLF)
  = six_frame.
Proof. vm_compute. reflexivity. Qed.

Lemma monitor_stops_at_first_failure_witness :
  start_monitor port_opens db_accepts 6 default_options
    (lines_then_silence
       [B "/ISK5" ++ CRLF; B "1-0:1.8.1(000123.456*kWh)" ++ CRLF;
        B "1-0:2.8.1(000010.000*kWh)" ++ CRLF; x21 :: B "518D" ++ CRLF])
  = Some (MonitorEnd (Exn TypeError)
            (Some (Serial "/dev/ttyUSB0" (PInt 115200) false false)) []).
Proof.
  apply (monitor_stops_at_first_failure port_opens db_accepts 5 default_options).
  - reflexivity.
  - vm_compute. reflexivity.
Defined.

Lemma monitor_telegram_then_failure_witness :
  exists keys,
    P1Packet six_frame = Ok keys /\
    start_monitor port_opens db_accepts 9 default_options
      (lines_then_failure six_frame_lines)
    = Some (MonitorEnd (Exn SmartMeterError)
              (Some (Serial "/dev/ttyUSB0" (PInt 115200) false false))
              [client_call default_options
                 (Point "smartmeter" ∅ (request_fields keys))]).
Proof.
  destruct six_frame_is_built as [keys Hk]. exists keys. split; [exact Hk|].
  apply (monitor_telegram_then_failure port_opens db_accepts 9 default_options
           (lines_then_failure six_frame_lines) []
           [B "1-0:1.8.1(000123.456*kWh)" ++ CRLF;
            B "1-0:1.8.2(000234.567*kWh)" ++ CRLF;
            B "1-0:2.8.1(000010.000*kWh)" ++ CRLF;
            B "1-0:2.8.2(000020.500*kWh)" ++ CRLF;
            B "1-0:1.7.0(00.250*kW)" ++ CRLF;
            B "1-0:2.7.0(01.500*kW)" ++ CRLF]
           (B "/ISK5" ++ CRLF) (x21 :: B "F2F9" ++ CRLF) keys ∅).
  - reflexivity.
  - intros m Hm. cbn [length app] in Hm. unfold lines_then_failure, six_frame_lines.
    cbn [length app Nat.add].
    destruct (Nat.ltb_spec m 8) as [_|Hge]; [reflexivity | lia].
  - reflexivity.
  - vm_compute. reflexivity.
  - vm_compute. reflexivity.
  - vm_compute. reflexivity.
  - reflexivity.
  - rewrite six_frame_lines_frame. exact Hk.
  - reflexivity.
  - reflexivity.
  - cbn [length app]. lia.
Defined.

Lemma monitor_writes_records_witness :
  exists f log',
    monitor_loop db_accepts 9 default_options (lines_then_failure six_frame_lines) []
    = Some (f, log') /\
    exists new,
      log' = [] ++ new /\
      Forall (fun c => exists tags d keys,
                request_tags (influx_tags default_options) = Some tags /\
                P1Packet d = Ok keys /\
                c = client_call default_options
                      (Point (influx_measurement default_options) tags
                             (request_fields keys)))
             new /\
      (f = IndexError -> new = []) /\
      (f = ClientError ->
       exists earlier c,
         new = earlier ++ [c] /\ db_accepts (length (@nil write_call) + length earlier)%nat = false).
Proof.
  destruct six_frame_is_built as [keys Hk].
  assert (monitor_loop db_accepts 9 default_options (lines_then_failure six_frame_lines) []
          = Some (Exn SmartMeterError,
                  [] ++ [client_call default_options
                           (Point (influx_measurement default_options) ∅
                                  (request_fields keys))])) as Hrun.
  { apply (monitor_loop_telegram_then_failure db_accepts default_options
             (lines_then_failure six_frame_lines) []
             [B "1-0:1.8.1(000123.456*kWh)" ++ CRLF;
              B "1-0:1.8.2(000234.567*kWh)" ++ CRLF;
              B "1-0:2.8.1(000010.000*kWh)" ++ CRLF;
              B "1-0:2.8.2(000020.500*kWh)" ++ CRLF;
              B "1-0:1.7.0(00.250*kW)" ++ CRLF;
              B "1-0:2.7.0(01.500*kW)" ++ CRLF]
             (B "/ISK5" ++ CRLF) (x21 :: B "F2F9" ++ CRLF) keys ∅ [] 9).
    - intros m Hm. cbn [length app] in Hm. unfold lines_then_failure, six_frame_lines.
      cbn [length app Nat.add].
      destruct (Nat.ltb_spec m 8) as [_|Hge]; [reflexivity | lia].
    - reflexivity.
    - vm_compute. reflexivity.
    - vm_compute. reflexivity.
    - vm_compute. reflexivity.
    - reflexivity.
    - rewrite six_frame_lines_frame. exact Hk.
    - reflexivity.
    - reflexivity.
    - cbn [length app]. lia. }
  eexists _, _. split; [exact Hrun|].
  exact (monitor_writes_records db_accepts 9 default_options _ _ _ _ Hrun).
Defined.

Lemma port_failure_ends_monitor_witness :
  start_monitor (fun _ _ => OSError) db_accepts 0 default_options (lines_then_silence [])
  = Some (MonitorEnd (Exn SmartMeterError) None []).
Proof.
  apply (port_failure_ends_monitor (fun _ _ => OSError) db_accepts 0 default_options
           (lines_then_silence [])).
  right. reflexivity.
Defined.
